(** * Thruster control of the AES rover: a shallow embedding of
      [rover/thruster_control.py] and the properties of its scaler, mixer,
      waypoint queue and control loop.

    Numbers: Python floats are idealised as exact rationals ([Q]); the
    constants [0.1] and [0.05] are the rationals 1/10 and 1/20.  Rational
    results are compared with [==] ([Qeq]) unless the code returns a literal. *)

From Stdlib Require Import QArith Qabs Qminmax Lqa ZArith List String Bool Lia.
Import ListNotations.
Local Open Scope Q_scope.

(** ** Python comparison and builtins on numbers *)

(** [a < b] on numbers, as a boolean. *)
Definition Qlt_bool (a b : Q) : bool := negb (Qle_bool b a).

(** [min(a, b)]: Python keeps the first argument unless a later one is
    strictly smaller. *)
Definition py_min (a b : Q) : Q := if Qlt_bool b a then b else a.

(** [max(a, b)]: Python keeps the first argument unless a later one is
    strictly greater. *)
Definition py_max (a b : Q) : Q := if Qlt_bool a b then b else a.

(** ** Module constants *)

Definition CONTROL_TIMEOUT : Q := 2.
Definition DISTANCE_DEADBAND : Q := 1 # 10.
Definition FULL_PWR_DISTANCE : Q := 10.
Definition MIN_PWR : Q := 1 # 20.
Definition MAX_MTR_PWR : Q := 20.

(** ** [scale_m_distance] and [scale_limit] *)

(** The linear-with-offset part of [scale_m_distance] (its last two lines). *)
Definition scale_m_formula (m : Q) : Q :=
  let x := (-1 * FULL_PWR_DISTANCE * MIN_PWR) / (MIN_PWR - 1) in
  (m / (FULL_PWR_DISTANCE + x)) + MIN_PWR.

Definition scale_m_distance (m : Q) : Q :=
  if Qlt_bool (Qabs m) DISTANCE_DEADBAND then 0
  else scale_m_formula m.

Definition scale_limit (s : Q) : Q :=
  let max_ := 1 in
  let min_ := - max_ in
  py_max min_ (py_min max_ s).

(** ** Data model *)

(** Exceptions the modelled code can raise. *)
Inductive exn : Type :=
| ValueError | AttributeError | IndexError | KeyError | TypeError.

(** A coordinate dict [{'lat': .., 'lon': ..}]. *)
Record coord : Type := { lat : Q; lon : Q }.

(** Values stored in the [movement] dict: a number or [None]. *)
Inductive pyval : Type :=
| PyNone
| PyNum (q : Q).

(** The [movement] dict, with its four fixed keys. *)
Record Movement : Type :=
  { x_trans : Q; y_trans : Q; xy_rot : Q; ts : option Q }.

(** [movement.items()], in insertion order. *)
Definition movement_items (m : Movement) : list (string * pyval) :=
  [ ("x_trans"%string, PyNum (x_trans m));
    ("y_trans"%string, PyNum (y_trans m));
    ("xy_rot"%string, PyNum (xy_rot m));
    ("ts"%string, match ts m with Some t => PyNum t | None => PyNone end) ].

(** A motor controller, identified by its bus address. *)
Record BlueESC : Type := { address : Z }.

(** The attribute [self.gps]: never assigned (a [gps] argument was passed to
    the constructor), [None] (connection failed) or a connected reader. *)
Inductive gps_attr : Type :=
| GpsUnset
| GpsNone
| GpsDevice.

Record ThrusterControl : Type :=
  { AUTO_TARGETS : list coord;
    _DEBUG : bool;
    running : bool;
    auto_force_disable : bool;
    auto_target : option coord;
    movement : Movement;
    gps : gps_attr;
    thrusters : option (list (string * BlueESC));
    imu : bool }.

Definition with_AUTO_TARGETS (q : list coord) (s : ThrusterControl) :=
  {| AUTO_TARGETS := q; _DEBUG := _DEBUG s; running := running s;
     auto_force_disable := auto_force_disable s; auto_target := auto_target s;
     movement := movement s; gps := gps s; thrusters := thrusters s;
     imu := imu s |}.

Definition with_running (b : bool) (s : ThrusterControl) :=
  {| AUTO_TARGETS := AUTO_TARGETS s; _DEBUG := _DEBUG s; running := b;
     auto_force_disable := auto_force_disable s; auto_target := auto_target s;
     movement := movement s; gps := gps s; thrusters := thrusters s;
     imu := imu s |}.

Definition with_auto_target (t : option coord) (s : ThrusterControl) :=
  {| AUTO_TARGETS := AUTO_TARGETS s; _DEBUG := _DEBUG s; running := running s;
     auto_force_disable := auto_force_disable s; auto_target := t;
     movement := movement s; gps := gps s; thrusters := thrusters s;
     imu := imu s |}.

Definition with_movement (m : Movement) (s : ThrusterControl) :=
  {| AUTO_TARGETS := AUTO_TARGETS s; _DEBUG := _DEBUG s; running := running s;
     auto_force_disable := auto_force_disable s; auto_target := auto_target s;
     movement := m; gps := gps s; thrusters := thrusters s;
     imu := imu s |}.

(** ** Observable actions *)

Inductive debug_msg : Type :=
| StopThrustersMsg                               (* "Stop Thrusters." *)
| ThrustersPowerMsg (pwrs : list (string * Q))   (* "Thrusters Power: {}" *)
| AutoDisableMsg                                 (* "Auto Disable" *)
| NoGpsMsg                   (* "AUTONOMOUS: NO GPS -- STOPPING THRUSTERS!" *)
| AutonomousDiffMsg (d : Q * Q).                 (* "Autonomous Diff: {}" *)

Inductive event : Type :=
| Sleep (seconds : Q)
| PrintDebug (m : debug_msg)
| SetPower (esc : BlueESC) (p : Q)       (* BlueESC.setPower *)
| StartPower (esc : BlueESC) (p : Q)     (* BlueESC.startPower *)
| ReadLocationData                        (* GPSRead.readLocationData *)
| GpsClose                                (* GPSRead.close *)
| ThreadStart                             (* threading.Thread.start *)
| Join.                                   (* threading.Thread.join *)

(** ** A state, trace and exception monad for the methods

    A method takes the object, and returns its result or the exception it
    raised, the object as the call left it, and the actions it performed in
    order.  State changes and actions made before an exception stay. *)

Inductive res (A : Type) : Type :=
| Ok (a : A)
| Raise (e : exn).
Arguments Ok {A} a.
Arguments Raise {A} e.

Definition M (A : Type) : Type :=
  ThrusterControl -> res A * ThrusterControl * list event.

Definition ret {A} (a : A) : M A := fun s => (Ok a, s, []).

Definition bind {A B} (m : M A) (k : A -> M B) : M B :=
  fun s =>
    match m s with
    | (Ok a, s1, t1) =>
        match k a s1 with (r, s2, t2) => (r, s2, t1 ++ t2) end
    | (Raise e, s1, t1) => (Raise e, s1, t1)
    end.

Definition raise {A} (e : exn) : M A := fun s => (Raise e, s, []).
Definition get : M ThrusterControl := fun s => (Ok s, s, []).
Definition modify (f : ThrusterControl -> ThrusterControl) : M unit :=
  fun s => (Ok tt, f s, []).
Definition emit (e : event) : M unit := fun s => (Ok tt, s, [e]).

(** [try: m except ...: h e]; the handler re-raises what it does not catch. *)
Definition try_except {A} (m : M A) (h : exn -> M A) : M A :=
  fun s =>
    match m s with
    | (Ok a, s1, t1) => (Ok a, s1, t1)
    | (Raise e, s1, t1) =>
        match h e s1 with (r, s2, t2) => (r, s2, t1 ++ t2) end
    end.

Declare Scope py_scope.
Delimit Scope py_scope with py.
Notation "x <- m ;; k" := (bind m (fun x => k))
  (at level 61, m at next level, right associativity) : py_scope.
Notation "m ;; k" := (bind m (fun _ => k))
  (at level 61, right associativity) : py_scope.
Local Open Scope py_scope.

(** [for x in l: body x] *)
Fixpoint for_each {X} (l : list X) (body : X -> M unit) : M unit :=
  match l with
  | [] => ret tt
  | x :: l' => body x ;; for_each l' body
  end.

(** ** Python helpers on dicts and strings *)

(** Iterating a dict yields its keys, in insertion order. *)
Definition dict_keys {V} (d : list (string * V)) : list string := map fst d.

Fixpoint dict_get {V} (k : string) (d : list (string * V)) : option V :=
  match d with
  | [] => None
  | (k', v) :: d' => if String.eqb k k' then Some v else dict_get k d'
  end.

(** [k, v = s] for a string [s]: the string is unpacked character by
    character and must have exactly two of them. *)
Definition unpack2 (s : string) : option (string * string) :=
  match s with
  | String a (String b EmptyString) =>
      Some (String a EmptyString, String b EmptyString)
  | _ => None
  end.

(** ** The class [ThrusterControl] *)

Definition initial_AUTO_TARGETS : list coord :=
  [ {| lat := 4173505 # 100000; lon := - (71319 # 1000) |};
    {| lat := 41736 # 1000; lon := - (71320 # 1000) |} ].

Definition hw_thrusters : list (string * BlueESC) :=
  [ ("f"%string, {| address := 0x2a |});
    ("b"%string, {| address := 0x2d |});
    ("l"%string, {| address := 0x2b |});
    ("r"%string, {| address := 0x2c |}) ].

(** [__init__]: [gps_arg] tells whether a [gps] argument was passed,
    [gps_ok], [esc_ok] and [imu_ok] whether constructing each device
    succeeds (the IMU calibration wait is taken to end). *)
Definition init (gps_arg gps_ok esc_ok imu_ok : bool) : ThrusterControl :=
  {| AUTO_TARGETS := initial_AUTO_TARGETS;
     _DEBUG := negb esc_ok;
     running := false;
     auto_force_disable := false;
     auto_target := None;
     movement := {| x_trans := 0; y_trans := 0; xy_rot := 0; ts := None |};
     gps := if gps_arg then GpsUnset else if gps_ok then GpsDevice else GpsNone;
     thrusters := if esc_ok then Some hw_thrusters else None;
     imu := imu_ok |}.

Definition print_debug (m : debug_msg) : M unit := emit (PrintDebug m).

Definition start : M unit :=
  modify (with_running true) ;; emit ThreadStart.

(** [self.thrusters[k]] *)
Definition thruster (k : string) : M BlueESC :=
  self <- get ;;
  match thrusters self with
  | None => raise TypeError
  | Some d =>
      match dict_get k d with
      | Some esc => ret esc
      | None => raise KeyError
      end
  end.

Definition stop_thrusters : M unit :=
  self <- get ;;
  match thrusters self with
  | Some d =>
      for_each (dict_keys d) (fun item =>
        match unpack2 item with
        | None => raise ValueError
        | Some (k, v) => esc <- thruster k ;; emit (SetPower esc 0)
        end)
  | None => print_debug StopThrustersMsg
  end.

(** [self.gps.close()] *)
Definition gps_close : M unit :=
  self <- get ;;
  match gps self with
  | GpsDevice => emit GpsClose
  | _ => raise AttributeError
  end.

Definition close : M unit :=
  stop_thrusters ;;
  gps_close ;;
  modify (with_running false) ;;
  emit Join.

Definition manual_control (now x y rot : Q) : M unit :=
  modify (with_movement
            {| x_trans := x; y_trans := y; xy_rot := rot; ts := Some now |}).

(** The dict [pwrs] built by [drive_thrusters]. *)
Definition pwrs (x y rot : Q) : list (string * Q) :=
  [ ("f"%string, MAX_MTR_PWR * scale_limit (x + rot));
    ("b"%string, MAX_MTR_PWR * scale_limit (x - rot));
    ("l"%string, MAX_MTR_PWR * scale_limit (y + rot));
    ("r"%string, MAX_MTR_PWR * scale_limit (y - rot)) ].

Definition drive_thrusters (x y rot : Q) : M unit :=
  let pwrs := pwrs x y rot in
  self <- get ;;
  match thrusters self with
  | Some _ =>
      for_each pwrs (fun '(k, v) => esc <- thruster k ;; emit (StartPower esc v))
  | None => print_debug (ThrustersPowerMsg pwrs)
  end.

Definition auto_enabled (self : ThrusterControl) : bool :=
  match auto_target self with
  | None => false
  | Some _ => true
  end.

Definition set_auto_target (lat lon : option Q) : M unit :=
  match lat, lon with
  | Some la, Some lo =>
      modify (with_auto_target (Some {| lat := la; lon := lo |}))
  | _, _ => modify (with_auto_target None)
  end.

Definition get_next_auto_target : M (option coord) :=
  try_except
    (self <- get ;;
     match AUTO_TARGETS self with
     | [] => raise IndexError
     | t :: rest => modify (with_AUTO_TARGETS rest) ;; ret (Some t)
     end)
    (fun e => match e with IndexError => ret None | _ => raise e end).

Definition next_auto_target : M unit :=
  t <- get_next_auto_target ;; modify (with_auto_target t).

Definition get_remaining_waypoints (self : ThrusterControl) : nat :=
  List.length (AUTO_TARGETS self).

Definition disable_auto : M unit :=
  print_debug AutoDisableMsg ;; modify (with_auto_target None).

(** ** The control loop [run] *)

(** What one iteration of the loop reads from outside the object: the clock
    ([time.time()]) and the outcome of the GPS read, should it be made. *)
Record tick_env : Type := { now : Q; gps_read : res coord }.

(** [self.gps.readLocationData()] *)
Definition gps_readLocationData (e : tick_env) : M coord :=
  self <- get ;;
  match gps self with
  | GpsDevice =>
      emit ReadLocationData ;;
      match gps_read e with
      | Ok loc => ret loc
      | Raise ex => raise ex
      end
  | _ => raise AttributeError
  end.

(** [self.movement['ts'] is None or (time.time() - self.movement['ts']) > CONTROL_TIMEOUT] *)
Definition stale (m : Movement) (now : Q) : bool :=
  match ts m with
  | None => true
  | Some t => Qlt_bool CONTROL_TIMEOUT (now - t)
  end.

(** [v == 0] for a value of the movement dict. *)
Definition py_eq_zero (v : pyval) : bool :=
  match v with
  | PyNum q => Qeq_bool q 0
  | PyNone => false
  end.

(** [all((v == 0 or k is 'ts') for k, v in self.movement.items())]; the key
    and the literal ['ts'] are the same interned string, so [is] is taken
    as equality of keys. *)
Definition movement_all_zero (m : Movement) : bool :=
  forallb (fun '(k, v) => py_eq_zero v || String.eqb k "ts")
          (movement_items m).

(** The condition of the [if] at the head of the contact branch: autonomous
    driving is cut off. *)
Definition auto_cut_off (self : ThrusterControl) : bool :=
  negb (auto_enabled self)
  || negb (movement_all_zero (movement self))
  || auto_force_disable self.

(** The coordinate used in debug mode when the GPS read fails. *)
Definition debug_loc : coord := {| lat := 41735 # 1000; lon := - (71319 # 1000) |}.

(** How a block of the loop body ends: it falls through to the next
    statement or executes [continue]. *)
Inductive flow : Type :=
| Fallthrough
| Continue.

Section ControlLoop.

(** [util.gps_coord_mdiff], of a module of the repository that is not at
    hand: the offsets in metres between two (lat, lon) pairs. *)
Variable gps_coord_mdiff : Q * Q -> Q * Q -> Q * Q.

(** The [else] block: autonomous driving. *)
Definition autonomous (e : tick_env) : M flow :=
  r <- try_except
         (loc <- gps_readLocationData e ;; ret (Some loc))
         (fun ex =>
            match ex with
            | ValueError =>
                self <- get ;;
                if _DEBUG self then ret (Some debug_loc)
                else stop_thrusters ;; print_debug NoGpsMsg ;; ret None
            | _ => raise ex
            end) ;;
  match r with
  | None => ret Continue
  | Some loc =>
      self <- get ;;
      match auto_target self with
      | None => raise TypeError
      | Some t =>
          let pos_diff_m := gps_coord_mdiff (lat loc, lon loc) (lat t, lon t) in
          print_debug (AutonomousDiffMsg pos_diff_m) ;;
          drive_thrusters (scale_m_distance (fst pos_diff_m))
                          (scale_m_distance (snd pos_diff_m)) 0 ;;
          ret Fallthrough
      end
  end.

(** One iteration of the [while] loop of [run]. *)
Definition tick (e : tick_env) : M unit :=
  emit (Sleep (2 # 10)) ;;
  self <- get ;;
  if stale (movement self) (now e) then
    modify (with_auto_target None) ;;
    stop_thrusters
  else
    fl <- (if auto_cut_off self then
             modify (with_auto_target None) ;; ret Fallthrough
           else autonomous e) ;;
    match fl with
    | Continue => ret tt
    | Fallthrough =>
        self <- get ;;
        match auto_target self with
        | None =>
            let m := movement self in
            drive_thrusters (x_trans m) (y_trans m) (xy_rot m)
        | Some _ => ret tt
        end
    end.

(** [run], on the environments of the iterations to come: it ends when
    [running] is found false, when an iteration raises, or (for the
    model only) when the environments run out. *)
Fixpoint run (envs : list tick_env) : M unit :=
  match envs with
  | [] => ret tt
  | e :: envs' =>
      self <- get ;;
      if running self then tick e ;; run envs' else ret tt
  end.

End ControlLoop.

(** ** Reading the outcome of a call *)

Definition result_of {A} (o : res A * ThrusterControl * list event) : res A :=
  fst (fst o).
Definition state_of {A} (o : res A * ThrusterControl * list event)
  : ThrusterControl := snd (fst o).
Definition trace_of {A} (o : res A * ThrusterControl * list event)
  : list event := snd o.

(** A computation that reads the object and acts on the devices, but leaves
    every attribute as it was. *)
Definition read_only {A} (m : M A) : Prop :=
  forall s, state_of (m s) = s.

(** ** Definitions on the side of the specification *)

(** The mixer as the specification words it: [clamp(g) = max(-1, min(1, g))]
    on each raw gain, then the scale to the output range. *)
Definition clamp_spec (g : Q) : Q := Qmax (- (1)) (Qmin 1 g).

Record mix_out : Type := { front : Q; back : Q; left : Q; right : Q }.

Definition mix_spec (surge lateral yaw : Q) : mix_out :=
  {| front := MAX_MTR_PWR * clamp_spec (surge + yaw);
     back := MAX_MTR_PWR * clamp_spec (surge - yaw);
     left := MAX_MTR_PWR * clamp_spec (lateral + yaw);
     right := MAX_MTR_PWR * clamp_spec (lateral - yaw) |}.

(** Two power dicts hold the same keys in the same order, with equal
    numbers. *)
Definition same_pwrs (a b : list (string * Q)) : Prop :=
  Forall2 (fun p q => fst p = fst q /\ snd p == snd q) a b.

(** Every command sent to a motor controller in a trace is within the
    motor power range. *)
Definition powers_bounded (t : list event) : Prop :=
  Forall (fun ev =>
            match ev with
            | StartPower _ p | SetPower _ p => Qabs p <= MAX_MTR_PWR
            | _ => True
            end) t.

(** The eligibility for autonomous driving as the specification words it:
    a target is set, every field of the last manual command is zero, and
    autonomous driving is not forced off. *)
Definition eligible_spec (s : ThrusterControl) : bool :=
  match auto_target s with Some _ => true | None => false end
  && (Qeq_bool (x_trans (movement s)) 0
      && Qeq_bool (y_trans (movement s)) 0
      && Qeq_bool (xy_rot (movement s)) 0)
  && negb (auto_force_disable s).

(** ** A rover to run the properties on *)

(** A stand-in for [util.gps_coord_mdiff] to run the loop on examples: the
    plain coordinate differences. *)
Definition planar_mdiff (a b : Q * Q) : Q * Q := (fst b - fst a, snd b - snd a).

(** The rover constructed with all its devices present, and started. *)
Definition started_hw : ThrusterControl :=
  state_of (start (init false true true true)).

(** The same rover after the command [(surge, lateral, yaw)] arrived at
    time 100 and the target (5, 7) was set. *)
Definition commanded_hw (x y rot : Q) : ThrusterControl :=
  state_of (set_auto_target (Some 5) (Some 7)
              (state_of (manual_control 100 x y rot started_hw))).

Definition env_at (t : Q) (g : res coord) : tick_env :=
  {| now := t; gps_read := g |}.

(** ** Definitions for the invariants of the loop and of the entry points *)

(** Every call of [m] takes the object to one related to it by [R]. *)
Definition preserves (R : ThrusterControl -> ThrusterControl -> Prop)
           {A} (m : M A) : Prop :=
  forall s, R s (state_of (m s)).

(** Every action of every call of [m] satisfies [P]. *)
Definition trace_all (P : event -> Prop) {A} (m : M A) : Prop :=
  forall s, Forall P (trace_of (m s)).

(** The object is as it was, but for a target that may have been unset. *)
Definition target_kept_or_cleared (s s' : ThrusterControl) : Prop :=
  s' = s \/ s' = with_auto_target None s.

(** The device attributes set by the constructor are as they were. *)
Definition same_devices (s s' : ThrusterControl) : Prop :=
  thrusters s' = thrusters s /\ _DEBUG s' = _DEBUG s
  /\ gps s' = gps s /\ imu s' = imu s.

(** A command to a motor controller that is within the motor power range. *)
Definition bounded_event (ev : event) : Prop :=
  match ev with
  | StartPower _ p | SetPower _ p => Qabs p <= MAX_MTR_PWR
  | _ => True
  end.

(** An action that is no command to a motor controller. *)
Definition no_motor_event (ev : event) : Prop :=
  match ev with
  | StartPower _ _ | SetPower _ _ => False
  | _ => True
  end.

(** The actions [stop_thrusters] may perform. *)
Definition stop_event (ev : event) : Prop :=
  match ev with
  | SetPower _ p => p = 0
  | PrintDebug StopThrustersMsg => True
  | _ => False
  end.

(** A GPS read that returns a position or fails with [ValueError]. *)
Definition gps_read_or_ValueError (e : tick_env) : Prop :=
  match gps_read e with
  | Ok _ | Raise ValueError => True
  | Raise _ => False
  end.

(** The object after [n] calls of [next_auto_target]. *)
Fixpoint after_next_auto_targets (n : nat) (s : ThrusterControl)
  : ThrusterControl :=
  match n with
  | O => s
  | S n' => after_next_auto_targets n' (state_of (next_auto_target s))
  end.

(** The calls a user of the class makes, and the loop thread's iterations. *)
Inductive call : Type :=
| CallStart
| CallClose
| CallManualControl (now x y rot : Q)
| CallSetAutoTarget (lat lon : option Q)
| CallNextAutoTarget
| CallDisableAuto
| CallRun (envs : list tick_env).

Definition do_call (mdiff : Q * Q -> Q * Q -> Q * Q) (c : call) : M unit :=
  match c with
  | CallStart => start
  | CallClose => close
  | CallManualControl now x y rot => manual_control now x y rot
  | CallSetAutoTarget lat lon => set_auto_target lat lon
  | CallNextAutoTarget => next_auto_target
  | CallDisableAuto => disable_auto
  | CallRun envs => run mdiff envs
  end.

(** The object after a sequence of calls, each on the object as the one
    before left it, whether it returned or raised. *)
Fixpoint do_calls (mdiff : Q * Q -> Q * Q -> Q * Q) (cs : list call)
         (s : ThrusterControl) : ThrusterControl :=
  match cs with
  | [] => s
  | c :: cs' => do_calls mdiff cs' (state_of (do_call mdiff c s))
  end.

(** The rover constructed without motor controllers (debug mode), with a
    connected GPS, and started. *)
Definition started_debug : ThrusterControl :=
  state_of (start (init false true false true)).

(** The rover constructed without motor controllers and without a GPS. *)
Definition started_debug_no_gps : ThrusterControl :=
  state_of (start (init false false false true)).

(** * Properties *)

(** ** Comparisons *)

Lemma Qlt_bool_iff (a b : Q) : Qlt_bool a b = true <-> a < b.
Proof.
  unfold Qlt_bool. rewrite negb_true_iff.
  split; intro H.
  - apply Qnot_le_lt. intro L. apply Qle_bool_iff in L. congruence.
  - destruct (Qle_bool b a) eqn:E; [|reflexivity].
    apply Qle_bool_iff in E. exfalso. apply (Qlt_not_le _ _ H E).
Qed.

Lemma Qlt_bool_false_iff (a b : Q) : Qlt_bool a b = false <-> b <= a.
Proof.
  unfold Qlt_bool. rewrite negb_false_iff. apply Qle_bool_iff.
Qed.

(** ** The power scaler *)

Lemma scale_m_formula_linear (m : Q) :
  scale_m_formula m == m * (19 # 200) + (1 # 20).
Proof.
  unfold scale_m_formula, FULL_PWR_DISTANCE, MIN_PWR. field.
Qed.

Lemma scale_outside_deadband (m : Q) :
  DISTANCE_DEADBAND <= Qabs m -> scale_m_distance m == m * (19 # 200) + (1 # 20).
Proof.
  intro H. unfold scale_m_distance.
  apply Qlt_bool_false_iff in H. rewrite H.
  apply scale_m_formula_linear.
Qed.

(** C5: for every distance whose magnitude is below the deadband (0.1 m),
    [scale_m_distance] returns the literal 0, whatever the sign. *)
Theorem scale_m_distance_deadband (d : Q) :
  Qabs d < DISTANCE_DEADBAND -> scale_m_distance d = 0.
Proof.
  intro H. unfold scale_m_distance.
  apply Qlt_bool_iff in H. now rewrite H.
Qed.

Lemma scale_m_distance_deadband_witness :
  scale_m_distance (1 # 20) = 0 /\ scale_m_distance (- (1 # 20)) = 0.
Proof.
  split; apply scale_m_distance_deadband; reflexivity.
Defined.

(** On the positive side the scaler does what its comment says. *)

Lemma scale_positive_sign (d : Q) :
  DISTANCE_DEADBAND <= d -> 0 < scale_m_distance d.
Proof.
  intro H. unfold DISTANCE_DEADBAND in H.
  rewrite scale_outside_deadband.
  - lra.
  - rewrite Qabs_pos; unfold DISTANCE_DEADBAND; lra.
Qed.

Lemma scale_full_power : scale_m_distance FULL_PWR_DISTANCE == 1.
Proof. reflexivity. Qed.

(** The linear part tends to [MIN_PWR] as the distance tends to 0 from
    above ... *)
Lemma scale_m_formula_limit (eps : Q) :
  0 < eps ->
  exists delta, 0 < delta /\
    forall d, 0 < d -> d < delta -> Qabs (scale_m_formula d - MIN_PWR) < eps.
Proof.
  intro He. exists eps. split; [assumption|].
  intros d H0 H1.
  apply Qabs_Qlt_condition.
  rewrite scale_m_formula_linear. unfold MIN_PWR. split; lra.
Qed.

(** ... and at the edge of the deadband, the smallest positive distance
    that is scaled, the output is just under 0.06. *)
Lemma scale_at_deadband_edge : scale_m_distance DISTANCE_DEADBAND == 119 # 2000.
Proof. reflexivity. Qed.

Lemma scale_monotone_positive (d1 d2 : Q) :
  DISTANCE_DEADBAND <= d1 -> d1 <= d2 ->
  Qabs (scale_m_distance d1) <= Qabs (scale_m_distance d2).
Proof.
  intros H1 H12. unfold DISTANCE_DEADBAND in H1.
  assert (A1 : DISTANCE_DEADBAND <= Qabs d1)
    by (rewrite Qabs_pos; unfold DISTANCE_DEADBAND; lra).
  assert (A2 : DISTANCE_DEADBAND <= Qabs d2)
    by (rewrite Qabs_pos; unfold DISTANCE_DEADBAND; lra).
  rewrite (scale_outside_deadband d1 A1), (scale_outside_deadband d2 A2).
  rewrite !Qabs_pos; lra.
Qed.

(** On the negative side the output is the mirror image of the positive
    one shifted up by twice [MIN_PWR] ... *)
Lemma scale_negative_shifted (d : Q) :
  d <= - DISTANCE_DEADBAND ->
  scale_m_distance d == - scale_m_distance (- d) + 2 * MIN_PWR.
Proof.
  intro H. unfold DISTANCE_DEADBAND in H.
  rewrite (scale_outside_deadband d), (scale_outside_deadband (- d)).
  - unfold MIN_PWR. lra.
  - rewrite Qabs_pos; unfold DISTANCE_DEADBAND; lra.
  - rewrite Qabs_neg; unfold DISTANCE_DEADBAND; lra.
Qed.

(** ... so that from the deadband down to -10/19 m the output is positive
    for a negative distance. *)
Lemma scale_negative_band_positive (d : Q) :
  - (10 # 19) < d -> d <= - DISTANCE_DEADBAND -> 0 < scale_m_distance d.
Proof.
  intros L H. unfold DISTANCE_DEADBAND in H.
  rewrite scale_outside_deadband.
  - lra.
  - rewrite Qabs_neg; unfold DISTANCE_DEADBAND; lra.
Qed.

(** C4: the scaler adds [MIN_PWR] whatever the sign of the distance, so a
    negative distance is not mirrored: at -10 m the output is -0.9 and not
    -1, and at -0.2 m, outside the deadband, the output is positive (0.031)
    although the distance is negative. *)
Theorem scale_m_distance_negative_inputs :
  scale_m_distance (- FULL_PWR_DISTANCE) == - (9 # 10)
  /\ ~ scale_m_distance (- FULL_PWR_DISTANCE) == - (1)
  /\ DISTANCE_DEADBAND <= Qabs (- (2 # 10))
  /\ - (2 # 10) < 0
  /\ scale_m_distance (- (2 # 10)) == 31 # 1000
  /\ 0 < scale_m_distance (- (2 # 10)).
Proof.
  repeat split; try reflexivity; try discriminate.
Qed.

(** C6: outside the deadband the output magnitude is not monotonic in the
    magnitude of a negative distance: -0.5 m is farther than -0.2 m and
    gets less power (0.0025 against 0.031). *)
Theorem scale_m_distance_not_monotone :
  DISTANCE_DEADBAND <= Qabs (- (2 # 10))
  /\ DISTANCE_DEADBAND <= Qabs (- (5 # 10))
  /\ Qabs (- (2 # 10)) < Qabs (- (5 # 10))
  /\ Qabs (scale_m_distance (- (5 # 10))) == 1 # 400
  /\ Qabs (scale_m_distance (- (2 # 10))) == 31 # 1000
  /\ ~ Qabs (scale_m_distance (- (2 # 10))) <= Qabs (scale_m_distance (- (5 # 10))).
Proof.
  repeat split; try reflexivity; try discriminate.
  intro H. vm_compute in H. apply H. reflexivity.
Qed.

(** ** The thruster mixer *)

Lemma py_min_spec (a b : Q) : py_min a b == Qmin a b.
Proof.
  unfold py_min. destruct (Qlt_bool b a) eqn:E.
  - apply Qlt_bool_iff in E. symmetry. apply Q.min_r. lra.
  - apply Qlt_bool_false_iff in E. symmetry. apply Q.min_l. exact E.
Qed.

Lemma py_max_spec (a b : Q) : py_max a b == Qmax a b.
Proof.
  unfold py_max. destruct (Qlt_bool a b) eqn:E.
  - apply Qlt_bool_iff in E. symmetry. apply Q.max_r. lra.
  - apply Qlt_bool_false_iff in E. symmetry. apply Q.max_l. exact E.
Qed.

Lemma scale_limit_spec (s : Q) : scale_limit s == clamp_spec s.
Proof.
  unfold scale_limit, clamp_spec.
  rewrite py_max_spec, py_min_spec. reflexivity.
Qed.

Lemma scale_limit_bounds (s : Q) : - (1) <= scale_limit s /\ scale_limit s <= 1.
Proof.
  unfold scale_limit, py_max, py_min.
  destruct (Qlt_bool s 1) eqn:E1.
  - apply Qlt_bool_iff in E1.
    destruct (Qlt_bool (- (1)) s) eqn:E2.
    + apply Qlt_bool_iff in E2. split; lra.
    + split; lra.
  - destruct (Qlt_bool (- (1)) 1) eqn:E2; split; lra.
Qed.

Lemma motor_power_bounded (g : Q) : Qabs (MAX_MTR_PWR * scale_limit g) <= MAX_MTR_PWR.
Proof.
  destruct (scale_limit_bounds g) as [L U].
  apply Qabs_Qle_condition. unfold MAX_MTR_PWR. split; lra.
Qed.

(** *** What a call leaves behind *)

Lemma read_only_ret {A} (a : A) : read_only (ret a).
Proof. intro s. reflexivity. Qed.

Lemma read_only_raise {A} (e : exn) : read_only (@raise A e).
Proof. intro s. reflexivity. Qed.

Lemma read_only_emit (e : event) : read_only (emit e).
Proof. intro s. reflexivity. Qed.

Lemma read_only_get : read_only get.
Proof. intro s. reflexivity. Qed.

Lemma read_only_bind {A B} (m : M A) (k : A -> M B) :
  read_only m -> (forall a, read_only (k a)) -> read_only (bind m k).
Proof.
  intros Hm Hk s. unfold bind. specialize (Hm s).
  destruct (m s) as [[[a | e] s1] t1]; cbn in Hm; subst s1.
  - specialize (Hk a s). destruct (k a s) as [[r s2] t2]. exact Hk.
  - reflexivity.
Qed.

Lemma read_only_try_except {A} (m : M A) (h : exn -> M A) :
  read_only m -> (forall e, read_only (h e)) -> read_only (try_except m h).
Proof.
  intros Hm Hh s. unfold try_except. specialize (Hm s).
  destruct (m s) as [[[a | e] s1] t1]; cbn in Hm; subst s1.
  - reflexivity.
  - specialize (Hh e s). destruct (h e s) as [[r s2] t2]. exact Hh.
Qed.

Lemma read_only_for_each {X} (l : list X) (body : X -> M unit) :
  (forall x, read_only (body x)) -> read_only (for_each l body).
Proof.
  intro Hb. induction l as [| x l IH]; cbn.
  - apply read_only_ret.
  - apply read_only_bind; [apply Hb | intros _; exact IH].
Qed.

Create HintDb read_only.
#[local] Hint Resolve read_only_ret read_only_raise read_only_emit
  read_only_get read_only_bind read_only_try_except read_only_for_each
  : read_only.

Lemma read_only_thruster (k : string) : read_only (thruster k).
Proof.
  unfold thruster. apply read_only_bind; [apply read_only_get|].
  intros self. destruct (thrusters self) as [d|]; auto with read_only.
  destruct (dict_get k d); auto with read_only.
Qed.

Lemma read_only_stop_thrusters : read_only stop_thrusters.
Proof.
  unfold stop_thrusters, print_debug.
  apply read_only_bind; [apply read_only_get|].
  intros self. destruct (thrusters self) as [d|]; auto with read_only.
  apply read_only_for_each. intros item.
  destruct (unpack2 item) as [[k v]|]; auto with read_only.
  apply read_only_bind; [apply read_only_thruster | auto with read_only].
Qed.

Lemma read_only_drive_thrusters (x y rot : Q) : read_only (drive_thrusters x y rot).
Proof.
  unfold drive_thrusters, print_debug.
  apply read_only_bind; [apply read_only_get|].
  intros self. destruct (thrusters self) as [d|]; auto with read_only.
  apply read_only_for_each. intros [k v].
  apply read_only_bind; [apply read_only_thruster | auto with read_only].
Qed.

(** *** Traces of the mixer *)

Lemma powers_bounded_app (t1 t2 : list event) :
  powers_bounded t1 -> powers_bounded t2 -> powers_bounded (t1 ++ t2).
Proof. unfold powers_bounded. intros. apply Forall_app. now split. Qed.

Lemma thruster_trace (k : string) (s : ThrusterControl) :
  trace_of (thruster k s) = [].
Proof.
  unfold thruster, bind, get. cbn.
  destruct (thrusters s) as [d|]; [|reflexivity].
  destruct (dict_get k d); reflexivity.
Qed.

Lemma start_power_loop_bounded (l : list (string * Q)) (s : ThrusterControl) :
  Forall (fun kv => Qabs (snd kv) <= MAX_MTR_PWR) l ->
  powers_bounded
    (trace_of (for_each l (fun '(k, v) =>
                             esc <- thruster k ;; emit (StartPower esc v)) s)).
Proof.
  revert s. induction l as [| [k v] l IH]; intros s Hl.
  - constructor.
  - inversion Hl as [| ? ? Hv Hl']; subst. cbn [for_each].
    unfold bind at 1.
    pose proof (thruster_trace k s) as Ht.
    pose proof (read_only_thruster k s) as Hs.
    unfold bind at 1.
    destruct (thruster k s) as [[[esc | e] s1] t1];
      cbn in Ht, Hs; subst s1 t1.
    + cbn. specialize (IH s Hl').
      destruct (for_each l _ s) as [[r s2] t2]. cbn in *.
      constructor; [exact Hv | exact IH].
    + constructor.
Qed.

Lemma pwrs_bounded (x y rot : Q) :
  Forall (fun kv => Qabs (snd kv) <= MAX_MTR_PWR) (pwrs x y rot).
Proof.
  unfold pwrs. repeat constructor; apply motor_power_bounded.
Qed.

Lemma drive_thrusters_bounded (x y rot : Q) (s : ThrusterControl) :
  powers_bounded (trace_of (drive_thrusters x y rot s)).
Proof.
  unfold drive_thrusters. unfold bind at 1. cbn [get].
  destruct (thrusters s) as [d|].
  - pose proof (start_power_loop_bounded (pwrs x y rot) s (pwrs_bounded x y rot)) as H.
    destruct (for_each _ _ s) as [[r s2] t2]. exact H.
  - cbn. repeat constructor.
Qed.

(** With the four motor controllers present, [drive_thrusters] starts each
    of them at its entry of [pwrs], front, back, left, right in turn. *)
Lemma drive_thrusters_hw (x y rot : Q) (s : ThrusterControl) :
  thrusters s = Some hw_thrusters ->
  drive_thrusters x y rot s =
    (Ok tt, s,
     [ StartPower {| address := 0x2a |} (MAX_MTR_PWR * scale_limit (x + rot));
       StartPower {| address := 0x2d |} (MAX_MTR_PWR * scale_limit (x - rot));
       StartPower {| address := 0x2b |} (MAX_MTR_PWR * scale_limit (y + rot));
       StartPower {| address := 0x2c |} (MAX_MTR_PWR * scale_limit (y - rot)) ]).
Proof.
  intro H. destruct s; cbn in H; subst. reflexivity.
Qed.

(** Without them, it prints the dict. *)
Lemma drive_thrusters_debug (x y rot : Q) (s : ThrusterControl) :
  thrusters s = None ->
  drive_thrusters x y rot s =
    (Ok tt, s, [PrintDebug (ThrustersPowerMsg (pwrs x y rot))]).
Proof.
  intro H. destruct s; cbn in H; subst. reflexivity.
Qed.

(** C7: for all gains the power dict of [drive_thrusters] is the mixer of
    the specification (raw gains surge+yaw, surge-yaw, lateral+yaw,
    lateral-yaw, each clamped to [-1, 1] and multiplied by 20), every entry
    and every command sent to a motor controller has magnitude at most 20,
    and the three sample mixes come out as stated.  With the four motor
    controllers present [drive_thrusters] returns after starting each of
    them at its entry of the dict, front, back, left and right in turn;
    without them it returns after printing the dict; either way it changes
    no attribute of the object. *)
Theorem drive_thrusters_mixer (x y rot : Q) (s : ThrusterControl) :
  same_pwrs (pwrs x y rot)
            [ ("f"%string, front (mix_spec x y rot));
              ("b"%string, back (mix_spec x y rot));
              ("l"%string, left (mix_spec x y rot));
              ("r"%string, right (mix_spec x y rot)) ]
  /\ Forall (fun kv => Qabs (snd kv) <= MAX_MTR_PWR) (pwrs x y rot)
  /\ powers_bounded (trace_of (drive_thrusters x y rot s))
  /\ (thrusters s = Some hw_thrusters ->
      drive_thrusters x y rot s =
        (Ok tt, s,
         [ StartPower {| address := 0x2a |} (MAX_MTR_PWR * scale_limit (x + rot));
           StartPower {| address := 0x2d |} (MAX_MTR_PWR * scale_limit (x - rot));
           StartPower {| address := 0x2b |} (MAX_MTR_PWR * scale_limit (y + rot));
           StartPower {| address := 0x2c |} (MAX_MTR_PWR * scale_limit (y - rot)) ]))
  /\ (thrusters s = None ->
      drive_thrusters x y rot s =
        (Ok tt, s, [PrintDebug (ThrustersPowerMsg (pwrs x y rot))]))
  /\ pwrs 5 0 0 = pwrs 1 0 0
  /\ pwrs 1 0 0 = [ ("f"%string, MAX_MTR_PWR); ("b"%string, MAX_MTR_PWR);
                    ("l"%string, 0); ("r"%string, 0) ]
  /\ pwrs 0 0 1 = [ ("f"%string, MAX_MTR_PWR); ("b"%string, - MAX_MTR_PWR);
                    ("l"%string, MAX_MTR_PWR); ("r"%string, - MAX_MTR_PWR) ].
Proof.
  split; [| split; [| split; [| split; [| split; [| split; [| split]]]]]].
  - unfold same_pwrs, pwrs, mix_spec; cbn [front back left right].
    repeat constructor; cbn [snd]; rewrite scale_limit_spec; reflexivity.
  - apply pwrs_bounded.
  - apply drive_thrusters_bounded.
  - apply drive_thrusters_hw.
  - apply drive_thrusters_debug.
  - reflexivity.
  - reflexivity.
  - reflexivity.
Qed.

(** A full-surge command on the started rover with its motor controllers:
    front and back are started at 20, left and right at 0; and a pure-yaw
    command on the rover without them: the dict is printed. *)
Lemma drive_thrusters_mixer_witness :
  drive_thrusters 1 0 0 started_hw
  = (Ok tt, started_hw,
     [ StartPower {| address := 0x2a |} (MAX_MTR_PWR * scale_limit (1 + 0));
       StartPower {| address := 0x2d |} (MAX_MTR_PWR * scale_limit (1 - 0));
       StartPower {| address := 0x2b |} (MAX_MTR_PWR * scale_limit (0 + 0));
       StartPower {| address := 0x2c |} (MAX_MTR_PWR * scale_limit (0 - 0)) ])
  /\ drive_thrusters 0 0 1 started_debug
     = (Ok tt, started_debug, [PrintDebug (ThrustersPowerMsg (pwrs 0 0 1))]).
Proof.
  split.
  - apply (proj1 (proj2 (proj2 (proj2 (drive_thrusters_mixer 1 0 0 started_hw))))).
    reflexivity.
  - apply (proj1 (proj2 (proj2 (proj2 (proj2
             (drive_thrusters_mixer 0 0 1 started_debug)))))).
    reflexivity.
Defined.

(** ** The waypoint queue and the autonomous target *)

Lemma next_auto_target_cons (w : coord) (q : list coord) (s : ThrusterControl) :
  AUTO_TARGETS s = w :: q ->
  next_auto_target s
  = (Ok tt, with_auto_target (Some w) (with_AUTO_TARGETS q s), []).
Proof.
  intro H. unfold next_auto_target, get_next_auto_target, try_except, bind, get.
  rewrite H. reflexivity.
Qed.

Lemma next_auto_target_nil (s : ThrusterControl) :
  AUTO_TARGETS s = [] ->
  next_auto_target s = (Ok tt, with_auto_target None s, []).
Proof.
  intro H. unfold next_auto_target, get_next_auto_target, try_except, bind, get.
  rewrite H. reflexivity.
Qed.

(** C8: [next_auto_target] takes the front waypoint off the queue and makes
    it the autonomous target, or unsets the target when the queue is empty;
    the rest of the queue keeps its order; the count of remaining waypoints
    goes down by one on a pop and stays at zero on an empty queue; with A
    and B queued, three calls give A, then B, then no target. *)
Theorem next_auto_target_fifo (s : ThrusterControl) (A B : coord) :
  match AUTO_TARGETS s with
  | [] => next_auto_target s = (Ok tt, with_auto_target None s, [])
  | w :: q =>
      next_auto_target s
      = (Ok tt, with_auto_target (Some w) (with_AUTO_TARGETS q s), [])
  end
  /\ get_remaining_waypoints (state_of (next_auto_target s))
     = (get_remaining_waypoints s - 1)%nat
  /\ let s0 := with_AUTO_TARGETS [A; B] s in
     let s1 := state_of (next_auto_target s0) in
     let s2 := state_of (next_auto_target s1) in
     let s3 := state_of (next_auto_target s2) in
     (auto_target s1 = Some A /\ get_remaining_waypoints s1 = 1%nat)
     /\ (auto_target s2 = Some B /\ get_remaining_waypoints s2 = 0%nat)
     /\ (auto_target s3 = None /\ get_remaining_waypoints s3 = 0%nat).
Proof.
  split; [| split].
  - destruct (AUTO_TARGETS s) as [| w q] eqn:E.
    + now apply next_auto_target_nil.
    + now apply next_auto_target_cons.
  - unfold get_remaining_waypoints.
    destruct (AUTO_TARGETS s) as [| w q] eqn:E.
    + rewrite (next_auto_target_nil s E). cbn. now rewrite E.
    + rewrite (next_auto_target_cons w q s E). cbn. lia.
  - cbn. repeat split.
Qed.

(** C10: [set_auto_target] unsets the autonomous target when the latitude
    or the longitude is left out, and sets it to the given pair when both
    are given; nothing else of the object changes and no device is
    touched. *)
Theorem set_auto_target_sets_or_clears (s : ThrusterControl) (la lo : Q)
        (lat_arg lon_arg : option Q) :
  set_auto_target None lon_arg s = (Ok tt, with_auto_target None s, [])
  /\ set_auto_target lat_arg None s = (Ok tt, with_auto_target None s, [])
  /\ set_auto_target (Some la) (Some lo) s
     = (Ok tt, with_auto_target (Some {| lat := la; lon := lo |}) s, [])
  /\ auto_target (state_of (set_auto_target None lon_arg s)) = None
  /\ auto_target (state_of (set_auto_target lat_arg None s)) = None
  /\ auto_target (state_of (set_auto_target (Some la) (Some lo) s))
     = Some {| lat := la; lon := lo |}.
Proof.
  repeat split; destruct lat_arg; reflexivity.
Qed.

(** ** Stopping the thrusters *)

(** The loop of [stop_thrusters] iterates the dict itself, so each item is
    a key, and unpacking a key into [k, v] needs a key of two characters:
    with any other first key the call raises before any motor controller is
    reached. *)
Lemma stop_thrusters_first_key (k0 : string) (esc0 : BlueESC)
      (d : list (string * BlueESC)) (s : ThrusterControl) :
  thrusters s = Some ((k0, esc0) :: d) ->
  unpack2 k0 = None ->
  stop_thrusters s = (Raise ValueError, s, []).
Proof.
  intros H U. unfold stop_thrusters, bind, get.
  rewrite H. cbn. rewrite U. reflexivity.
Qed.

Lemma stop_thrusters_hw (s : ThrusterControl) :
  thrusters s = Some hw_thrusters ->
  stop_thrusters s = (Raise ValueError, s, []).
Proof.
  intro H. apply (stop_thrusters_first_key _ _ _ s H). reflexivity.
Qed.

Lemma stop_thrusters_debug (s : ThrusterControl) :
  thrusters s = None ->
  stop_thrusters s = (Ok tt, s, [PrintDebug StopThrustersMsg]).
Proof.
  intro H. unfold stop_thrusters, print_debug, bind, get, emit.
  rewrite H. reflexivity.
Qed.

(** C9: with the motor controllers present, [close] raises [ValueError] in
    its first statement: no zero power is commanded, [running] keeps its
    value, the GPS is not closed and the loop thread is not joined. *)
Theorem close_hw_raises (s : ThrusterControl) :
  thrusters s = Some hw_thrusters ->
  close s = (Raise ValueError, s, [])
  /\ running (state_of (close s)) = running s
  /\ ~ In Join (trace_of (close s))
  /\ forall esc, ~ In (SetPower esc 0) (trace_of (close s)).
Proof.
  intro H.
  assert (E : close s = (Raise ValueError, s, [])).
  { unfold close. unfold bind at 1. now rewrite (stop_thrusters_hw s H). }
  rewrite E. cbn. repeat split; auto.
Qed.

(** In debug mode with a connected GPS, [close] prints the stop, closes the
    GPS, clears [running] and joins the thread. *)
Lemma close_debug (s : ThrusterControl) :
  thrusters s = None -> gps s = GpsDevice ->
  close s = (Ok tt, with_running false s,
             [PrintDebug StopThrustersMsg; GpsClose; Join]).
Proof.
  intros H G. destruct s; cbn in H, G; subst. reflexivity.
Qed.

(** ** The control loop *)

Lemma movement_all_zero_fields (m : Movement) :
  movement_all_zero m
  = Qeq_bool (x_trans m) 0 && Qeq_bool (y_trans m) 0 && Qeq_bool (xy_rot m) 0.
Proof.
  unfold movement_all_zero, movement_items. cbn.
  rewrite !orb_false_r, orb_true_r, !andb_true_r, andb_assoc. reflexivity.
Qed.

Lemma auto_cut_off_eligible (s : ThrusterControl) :
  auto_cut_off s = negb (eligible_spec s).
Proof.
  unfold auto_cut_off, eligible_spec, auto_enabled.
  rewrite movement_all_zero_fields, !negb_andb, negb_involutive.
  reflexivity.
Qed.

Lemma eligible_spec_iff (s : ThrusterControl) :
  eligible_spec s = true <->
  auto_target s <> None
  /\ x_trans (movement s) == 0 /\ y_trans (movement s) == 0
  /\ xy_rot (movement s) == 0
  /\ auto_force_disable s = false.
Proof.
  unfold eligible_spec.
  rewrite !andb_true_iff, !Qeq_bool_iff, negb_true_iff.
  destruct (auto_target s); intuition congruence.
Qed.

Section ControlLoopProperties.

Variable mdiff : Q * Q -> Q * Q -> Q * Q.

Lemma read_only_gps_readLocationData (e : tick_env) :
  read_only (gps_readLocationData e).
Proof.
  unfold gps_readLocationData.
  apply read_only_bind; [apply read_only_get|].
  intros self. destruct (gps self); auto with read_only.
  apply read_only_bind; [apply read_only_emit|].
  intros _. destruct (gps_read e); auto with read_only.
Qed.

(** The autonomous block changes no attribute of the object. *)
Lemma read_only_autonomous (e : tick_env) : read_only (autonomous mdiff e).
Proof.
  unfold autonomous, print_debug.
  apply read_only_bind.
  - apply read_only_try_except.
    + apply read_only_bind; [apply read_only_gps_readLocationData|].
      auto with read_only.
    + intros ex. destruct ex; auto with read_only.
      apply read_only_bind; [apply read_only_get|].
      intros self. destruct (_DEBUG self); auto with read_only.
      apply read_only_bind; [apply read_only_stop_thrusters|].
      auto with read_only.
  - intros [loc|]; auto with read_only.
    apply read_only_bind; [apply read_only_get|].
    intros self. destruct (auto_target self); auto with read_only.
    apply read_only_bind; [apply read_only_emit|]. intros _.
    apply read_only_bind; [apply read_only_drive_thrusters|].
    auto with read_only.
Qed.

(** C1: with the motor controllers present, an iteration that finds the
    command stale (no timestamp, or older than [CONTROL_TIMEOUT]) clears
    the autonomous target and then raises [ValueError] out of
    [stop_thrusters]: no power command reaches any channel, and the
    exception leaves [run]. *)
Theorem tick_stale_hw_raises (e : tick_env) (envs : list tick_env)
        (s : ThrusterControl) :
  thrusters s = Some hw_thrusters ->
  running s = true ->
  stale (movement s) (now e) = true ->
  tick mdiff e s = (Raise ValueError, with_auto_target None s, [Sleep (2 # 10)])
  /\ run mdiff (e :: envs) s
     = (Raise ValueError, with_auto_target None s, [Sleep (2 # 10)]).
Proof.
  intros H R St.
  assert (T : tick mdiff e s
              = (Raise ValueError, with_auto_target None s, [Sleep (2 # 10)])).
  { unfold tick, bind at 1 2. cbn [emit get]. rewrite St.
    unfold bind, modify.
    now rewrite (stop_thrusters_hw (with_auto_target None s) H). }
  split; [exact T|].
  cbn [run]. unfold bind at 1. cbn [get]. rewrite R.
  unfold bind. now rewrite T.
Qed.

(** In debug mode the same iteration clears the target and prints the
    stop. *)
Lemma tick_stale_debug (e : tick_env) (s : ThrusterControl) :
  thrusters s = None ->
  stale (movement s) (now e) = true ->
  tick mdiff e s
  = (Ok tt, with_auto_target None s,
     [Sleep (2 # 10); PrintDebug StopThrustersMsg]).
Proof.
  intros H St.
  unfold tick, bind at 1 2. cbn [emit get]. rewrite St.
  unfold bind, modify.
  now rewrite (stop_thrusters_debug (with_auto_target None s) H).
Qed.

(** A fresh command with the autonomous driving cut off: the target is
    cleared and the thrusters are driven from the manual command. *)
Lemma tick_cut_off (e : tick_env) (s : ThrusterControl) :
  stale (movement s) (now e) = false ->
  auto_cut_off s = true ->
  let d := drive_thrusters (x_trans (movement s)) (y_trans (movement s))
                           (xy_rot (movement s))
                           (with_auto_target None s) in
  tick mdiff e s
  = (result_of d, with_auto_target None s, Sleep (2 # 10) :: trace_of d).
Proof.
  intros St Hc d. subst d.
  unfold tick, bind at 1 2. cbn [emit get]. rewrite St, Hc.
  unfold bind at 1. unfold bind at 1. cbn [modify ret app].
  unfold bind at 1. cbn [get auto_target with_auto_target movement].
  pose proof (read_only_drive_thrusters
                (x_trans (movement s)) (y_trans (movement s))
                (xy_rot (movement s)) (with_auto_target None s)) as Hs.
  destruct (drive_thrusters _ _ _ (with_auto_target None s))
    as [[r s1] t1]; cbn in Hs; subst s1. reflexivity.
Qed.

(** A fresh command with the autonomous driving allowed: the iteration is
    the autonomous block and nothing after it. *)
Lemma tick_autonomous (e : tick_env) (s : ThrusterControl) :
  stale (movement s) (now e) = false ->
  auto_cut_off s = false ->
  let a := autonomous mdiff e s in
  tick mdiff e s
  = (match result_of a with Ok _ => Ok tt | Raise ex => Raise ex end,
     s, Sleep (2 # 10) :: trace_of a).
Proof.
  intros St Hc a. subst a.
  assert (Ht : auto_target s <> None).
  { rewrite auto_cut_off_eligible, negb_false_iff in Hc.
    now apply eligible_spec_iff in Hc. }
  unfold tick, bind at 1 2. cbn [emit get]. rewrite St, Hc.
  unfold bind at 1.
  pose proof (read_only_autonomous e s) as Hs.
  destruct (autonomous mdiff e s) as [[[fl | ex] s1] t1];
    cbn in Hs; subst s1; cbn [result_of trace_of fst snd].
  - destruct fl.
    + unfold bind, get. destruct (auto_target s); [|congruence].
      cbn. now rewrite app_nil_r.
    + cbn. now rewrite app_nil_r.
  - reflexivity.
Qed.

(** C3: an iteration that finds a fresh command runs the autonomous block
    exactly when a target is set, every field of the last manual command
    is zero and autonomous driving is not forced off; it then does not
    drive from the manual command.  Otherwise it clears the target and,
    in the same iteration, drives the thrusters with the surge, lateral
    and yaw of the last manual command. *)
Theorem tick_fresh_arbitration (e : tick_env) (s : ThrusterControl) :
  stale (movement s) (now e) = false ->
  tick mdiff e s =
    if eligible_spec s then
      let a := autonomous mdiff e s in
      (match result_of a with Ok _ => Ok tt | Raise ex => Raise ex end,
       s, Sleep (2 # 10) :: trace_of a)
    else
      let d := drive_thrusters (x_trans (movement s)) (y_trans (movement s))
                               (xy_rot (movement s))
                               (with_auto_target None s) in
      (result_of d, with_auto_target None s, Sleep (2 # 10) :: trace_of d).
Proof.
  intros St.
  pose proof (auto_cut_off_eligible s) as E.
  destruct (eligible_spec s); cbn [negb] in E.
  - now apply tick_autonomous.
  - now apply tick_cut_off.
Qed.

(** A manual command with a non-zero field, submitted while a target is
    set, makes the next iteration (within the timeout) drive the motor
    controllers from that command and drop the target. *)
Lemma manual_command_overrides_auto (e : tick_env) (s : ThrusterControl)
      (t x y rot : Q) :
  thrusters s = Some hw_thrusters ->
  ~ (x == 0 /\ y == 0 /\ rot == 0) ->
  now e - t <= CONTROL_TIMEOUT ->
  tick mdiff e (state_of (manual_control t x y rot s))
  = (Ok tt,
     with_auto_target None (state_of (manual_control t x y rot s)),
     Sleep (2 # 10)
       :: map (fun '(esc, kv) => StartPower (snd esc) (snd kv))
              (combine hw_thrusters (pwrs x y rot))).
Proof.
  intros H NZ Fr.
  set (s' := state_of (manual_control t x y rot s)).
  assert (St : stale (movement s') (now e) = false).
  { cbn. now apply Qlt_bool_false_iff. }
  assert (Hc : auto_cut_off s' = true).
  { rewrite auto_cut_off_eligible, negb_true_iff.
    destruct (eligible_spec s') eqn:E; [|reflexivity].
    apply eligible_spec_iff in E. cbn in E. tauto. }
  rewrite (tick_cut_off e s' St Hc).
  rewrite drive_thrusters_hw by exact H. reflexivity.
Qed.

Lemma autonomous_gps_failure_hw (e : tick_env) (s : ThrusterControl) :
  thrusters s = Some hw_thrusters ->
  _DEBUG s = false ->
  gps s = GpsDevice ->
  gps_read e = Raise ValueError ->
  autonomous mdiff e s = (Raise ValueError, s, [ReadLocationData]).
Proof.
  intros H D G Rd. destruct s; cbn in H, D, G; subst.
  unfold autonomous, try_except, gps_readLocationData, bind, get, emit.
  cbn. rewrite Rd. reflexivity.
Qed.

(** C2: with the motor controllers present (so not in debug mode), when
    the GPS read of an autonomous iteration raises [ValueError] the
    handler calls [stop_thrusters], which raises [ValueError] itself: no
    power command reaches any channel, and the exception leaves [run]. *)
Theorem tick_gps_failure_hw_raises (e : tick_env) (envs : list tick_env)
        (s : ThrusterControl) :
  thrusters s = Some hw_thrusters ->
  _DEBUG s = false ->
  gps s = GpsDevice ->
  running s = true ->
  stale (movement s) (now e) = false ->
  auto_cut_off s = false ->
  gps_read e = Raise ValueError ->
  tick mdiff e s = (Raise ValueError, s, [Sleep (2 # 10); ReadLocationData])
  /\ run mdiff (e :: envs) s
     = (Raise ValueError, s, [Sleep (2 # 10); ReadLocationData]).
Proof.
  intros H D G R St Hc Rd.
  assert (T : tick mdiff e s
              = (Raise ValueError, s, [Sleep (2 # 10); ReadLocationData])).
  { unfold tick, bind at 1 2. cbn [emit get]. rewrite St, Hc.
    unfold bind at 1.
    now rewrite (autonomous_gps_failure_hw e s H D G Rd). }
  split; [exact T|].
  cbn [run]. unfold bind at 1. cbn [get]. rewrite R.
  unfold bind. now rewrite T.
Qed.

(** In debug mode the fixed coordinate stands in for the failed read and
    the autonomous computation goes on from it. *)
Lemma tick_gps_failure_debug (e : tick_env) (s : ThrusterControl) (t : coord) :
  thrusters s = None ->
  _DEBUG s = true ->
  gps s = GpsDevice ->
  stale (movement s) (now e) = false ->
  auto_cut_off s = false ->
  auto_target s = Some t ->
  gps_read e = Raise ValueError ->
  let d := mdiff (lat debug_loc, lon debug_loc) (lat t, lon t) in
  tick mdiff e s
  = (Ok tt, s,
     [ Sleep (2 # 10); ReadLocationData;
       PrintDebug (AutonomousDiffMsg d);
       PrintDebug (ThrustersPowerMsg
                     (pwrs (scale_m_distance (fst d))
                           (scale_m_distance (snd d)) 0)) ]).
Proof.
  intros H D G St Hc Ht Rd d.
  unfold tick, bind at 1 2. cbn [emit get]. rewrite St, Hc.
  destruct s; cbn in H, D, G, Ht; subst.
  unfold autonomous, try_except, gps_readLocationData, bind, get, emit.
  cbn. rewrite Rd. reflexivity.
Qed.

End ControlLoopProperties.

(** ** The properties on a run of the rover *)

(** A command stamped 100, read at 102.01: the loop thread dies of a
    [ValueError] and no motor controller was told anything. *)
Lemma tick_stale_hw_raises_witness :
  tick planar_mdiff (env_at (10201 # 100) (Raise ValueError)) (commanded_hw 1 0 0)
  = (Raise ValueError, with_auto_target None (commanded_hw 1 0 0),
     [Sleep (2 # 10)])
  /\ run planar_mdiff [env_at (10201 # 100) (Raise ValueError)] (commanded_hw 1 0 0)
     = (Raise ValueError, with_auto_target None (commanded_hw 1 0 0),
        [Sleep (2 # 10)]).
Proof.
  apply (tick_stale_hw_raises planar_mdiff
           (env_at (10201 # 100) (Raise ValueError)) [] (commanded_hw 1 0 0));
    reflexivity.
Defined.

(** A zero command stamped 100, a target set, and a GPS read that fails at
    101. *)
Lemma tick_gps_failure_hw_raises_witness :
  tick planar_mdiff (env_at 101 (Raise ValueError)) (commanded_hw 0 0 0)
  = (Raise ValueError, commanded_hw 0 0 0, [Sleep (2 # 10); ReadLocationData])
  /\ run planar_mdiff [env_at 101 (Raise ValueError)] (commanded_hw 0 0 0)
     = (Raise ValueError, commanded_hw 0 0 0,
        [Sleep (2 # 10); ReadLocationData]).
Proof.
  apply (tick_gps_failure_hw_raises planar_mdiff
           (env_at 101 (Raise ValueError)) [] (commanded_hw 0 0 0));
    reflexivity.
Defined.

(** A full-surge command stamped 100 with a target set, read at 101: the
    target is dropped and front and back run at full power; with the zero
    command instead, the thrusters are driven from the GPS position. *)
Lemma tick_fresh_arbitration_witness :
  tick planar_mdiff (env_at 101 (Ok {| lat := 1; lon := 10 |})) (commanded_hw 1 0 0)
  = (Ok tt, with_auto_target None (commanded_hw 1 0 0),
     [ Sleep (2 # 10);
       StartPower {| address := 0x2a |} 20; StartPower {| address := 0x2d |} 20;
       StartPower {| address := 0x2b |} 0; StartPower {| address := 0x2c |} 0 ])
  /\ tick planar_mdiff (env_at 101 (Ok {| lat := 1; lon := 10 |})) (commanded_hw 0 0 0)
     = (Ok tt, commanded_hw 0 0 0,
        Sleep (2 # 10) :: ReadLocationData
          :: PrintDebug (AutonomousDiffMsg (5 - 1, 7 - 10))
          :: map (fun '(esc, kv) => StartPower (snd esc) (snd kv))
                 (combine hw_thrusters
                    (pwrs (scale_m_distance (5 - 1))
                          (scale_m_distance (7 - 10)) 0))).
Proof.
  split.
  - exact (tick_fresh_arbitration planar_mdiff
             (env_at 101 (Ok {| lat := 1; lon := 10 |})) (commanded_hw 1 0 0)
             eq_refl).
  - exact (tick_fresh_arbitration planar_mdiff
             (env_at 101 (Ok {| lat := 1; lon := 10 |})) (commanded_hw 0 0 0)
             eq_refl).
Defined.

(** [close] on the started rover. *)
Lemma close_hw_raises_witness :
  close started_hw = (Raise ValueError, started_hw, [])
  /\ running (state_of (close started_hw)) = running started_hw
  /\ ~ In Join (trace_of (close started_hw))
  /\ forall esc, ~ In (SetPower esc 0) (trace_of (close started_hw)).
Proof.
  apply (close_hw_raises started_hw). reflexivity.
Defined.

(** * Further properties of the class *)

(** ** Invariants of computations *)

Section Preserves.

Variable R : ThrusterControl -> ThrusterControl -> Prop.
Hypothesis R_refl : forall s, R s s.
Hypothesis R_trans : forall a b c, R a b -> R b c -> R a c.

Lemma preserves_read_only {A} (m : M A) : read_only m -> preserves R m.
Proof. intros H s. rewrite (H s). apply R_refl. Qed.

Lemma preserves_modify (f : ThrusterControl -> ThrusterControl) :
  (forall s, R s (f s)) -> preserves R (modify f).
Proof. intros H s. apply H. Qed.

Lemma preserves_bind {A B} (m : M A) (k : A -> M B) :
  preserves R m -> (forall a, preserves R (k a)) -> preserves R (bind m k).
Proof.
  intros Hm Hk s. unfold bind. specialize (Hm s).
  destruct (m s) as [[[a | e] s1] t1]; cbn in Hm.
  - specialize (Hk a s1). destruct (k a s1) as [[r s2] t2]. cbn in *.
    eapply R_trans; eassumption.
  - exact Hm.
Qed.

Lemma preserves_try_except {A} (m : M A) (h : exn -> M A) :
  preserves R m -> (forall e, preserves R (h e)) -> preserves R (try_except m h).
Proof.
  intros Hm Hh s. unfold try_except. specialize (Hm s).
  destruct (m s) as [[[a | e] s1] t1]; cbn in Hm.
  - exact Hm.
  - specialize (Hh e s1). destruct (h e s1) as [[r s2] t2]. cbn in *.
    eapply R_trans; eassumption.
Qed.

Lemma preserves_tick (mdiff : Q * Q -> Q * Q -> Q * Q) (e : tick_env) :
  (forall s, R s (with_auto_target None s)) -> preserves R (tick mdiff e).
Proof.
  intro Hc. unfold tick.
  apply preserves_bind; [apply preserves_read_only, read_only_emit|]. intros _.
  apply preserves_bind; [apply preserves_read_only, read_only_get|]. intros self.
  destruct (stale (movement self) (now e)).
  - apply preserves_bind; [now apply preserves_modify|]. intros _.
    apply preserves_read_only, read_only_stop_thrusters.
  - apply preserves_bind.
    + destruct (auto_cut_off self).
      * apply preserves_bind; [now apply preserves_modify|]. intros _.
        apply preserves_read_only, read_only_ret.
      * apply preserves_read_only, read_only_autonomous.
    + intros [|]; [|apply preserves_read_only, read_only_ret].
      apply preserves_bind; [apply preserves_read_only, read_only_get|].
      intros self'. destruct (auto_target self').
      * apply preserves_read_only, read_only_ret.
      * apply preserves_read_only, read_only_drive_thrusters.
Qed.

Lemma preserves_run (mdiff : Q * Q -> Q * Q -> Q * Q) (envs : list tick_env) :
  (forall s, R s (with_auto_target None s)) -> preserves R (run mdiff envs).
Proof.
  intro Hc. induction envs as [| e envs IH]; cbn [run].
  - apply preserves_read_only, read_only_ret.
  - apply preserves_bind; [apply preserves_read_only, read_only_get|].
    intros self. destruct (running self).
    + apply preserves_bind; [now apply preserves_tick | intros _; exact IH].
    + apply preserves_read_only, read_only_ret.
Qed.

End Preserves.

Lemma target_kept_or_cleared_refl (s : ThrusterControl) :
  target_kept_or_cleared s s.
Proof. now left. Qed.

Lemma target_kept_or_cleared_trans (a b c : ThrusterControl) :
  target_kept_or_cleared a b -> target_kept_or_cleared b c ->
  target_kept_or_cleared a c.
Proof.
  intros [-> | ->] [-> | ->]; try (now left); now right.
Qed.

Lemma same_devices_refl (s : ThrusterControl) : same_devices s s.
Proof. repeat split. Qed.

Lemma same_devices_trans (a b c : ThrusterControl) :
  same_devices a b -> same_devices b c -> same_devices a c.
Proof.
  unfold same_devices. intros (H1 & H2 & H3 & H4) (K1 & K2 & K3 & K4).
  repeat split; congruence.
Qed.

(** X1: the loop never changes the object except to unset the autonomous
    target: after one iteration, and after any number of them, the object
    is as it was or as it was with [auto_target = None]; in particular the
    loop never clears [running] itself, and never touches the last command
    or the waypoint queue. *)
Theorem run_only_clears_target (mdiff : Q * Q -> Q * Q -> Q * Q)
        (e : tick_env) (envs : list tick_env) (s : ThrusterControl) :
  target_kept_or_cleared s (state_of (tick mdiff e s))
  /\ target_kept_or_cleared s (state_of (run mdiff envs s))
  /\ running (state_of (run mdiff envs s)) = running s
  /\ movement (state_of (run mdiff envs s)) = movement s
  /\ AUTO_TARGETS (state_of (run mdiff envs s)) = AUTO_TARGETS s
  /\ auto_force_disable (state_of (run mdiff envs s)) = auto_force_disable s.
Proof.
  assert (T : target_kept_or_cleared s (state_of (tick mdiff e s))).
  { apply (preserves_tick _ target_kept_or_cleared_refl
                          target_kept_or_cleared_trans).
    intros s0. now right. }
  assert (Rn : target_kept_or_cleared s (state_of (run mdiff envs s))).
  { apply (preserves_run _ target_kept_or_cleared_refl
                         target_kept_or_cleared_trans).
    intros s0. now right. }
  split; [exact T | split; [exact Rn |]].
  destruct Rn as [-> | ->]; repeat split.
Qed.


(** ** Invariants of traces *)

Section TraceAll.

Variable P : event -> Prop.

Lemma trace_all_ret {A} (a : A) : trace_all P (ret a).
Proof. intro s. constructor. Qed.

Lemma trace_all_raise {A} (e : exn) : trace_all P (@raise A e).
Proof. intro s. constructor. Qed.

Lemma trace_all_get : trace_all P get.
Proof. intro s. constructor. Qed.

Lemma trace_all_modify (f : ThrusterControl -> ThrusterControl) :
  trace_all P (modify f).
Proof. intro s. constructor. Qed.

Lemma trace_all_emit (e : event) : P e -> trace_all P (emit e).
Proof. intros H s. repeat constructor. exact H. Qed.

Lemma trace_all_bind {A B} (m : M A) (k : A -> M B) :
  trace_all P m -> (forall a, trace_all P (k a)) -> trace_all P (bind m k).
Proof.
  intros Hm Hk s. unfold bind. specialize (Hm s).
  destruct (m s) as [[[a | e] s1] t1]; cbn in Hm.
  - specialize (Hk a s1). destruct (k a s1) as [[r s2] t2]. cbn in *.
    apply Forall_app. now split.
  - exact Hm.
Qed.

Lemma trace_all_try_except {A} (m : M A) (h : exn -> M A) :
  trace_all P m -> (forall e, trace_all P (h e)) -> trace_all P (try_except m h).
Proof.
  intros Hm Hh s. unfold try_except. specialize (Hm s).
  destruct (m s) as [[[a | e] s1] t1]; cbn in Hm.
  - exact Hm.
  - specialize (Hh e s1). destruct (h e s1) as [[r s2] t2]. cbn in *.
    apply Forall_app. now split.
Qed.

Lemma trace_all_for_each {X} (l : list X) (body : X -> M unit) :
  (forall x, trace_all P (body x)) -> trace_all P (for_each l body).
Proof.
  intro Hb. induction l as [| x l IH]; cbn [for_each].
  - apply trace_all_ret.
  - apply trace_all_bind; [apply Hb | intros _; exact IH].
Qed.

Lemma trace_all_thruster (k : string) : trace_all P (thruster k).
Proof.
  intro s. rewrite thruster_trace. constructor.
Qed.

End TraceAll.

Create HintDb trace_all.
#[local] Hint Resolve trace_all_ret trace_all_raise trace_all_get
  trace_all_modify trace_all_bind trace_all_try_except trace_all_for_each
  trace_all_thruster : trace_all.

Lemma trace_all_stop_thrusters (P : event -> Prop) :
  (forall esc, P (SetPower esc 0)) -> P (PrintDebug StopThrustersMsg) ->
  trace_all P stop_thrusters.
Proof.
  intros Hz Hp. unfold stop_thrusters, print_debug.
  apply trace_all_bind; [apply trace_all_get|].
  intros self. destruct (thrusters self) as [d|].
  - apply trace_all_for_each. intros item.
    destruct (unpack2 item) as [[k v]|]; [|apply trace_all_raise].
    apply trace_all_bind; [apply trace_all_thruster|].
    intros esc. apply trace_all_emit, Hz.
  - now apply trace_all_emit.
Qed.

Lemma zero_power_bounded : Qabs 0 <= MAX_MTR_PWR.
Proof. discriminate. Qed.

Lemma trace_all_bounded_drive_thrusters (x y rot : Q) :
  trace_all bounded_event (drive_thrusters x y rot).
Proof. intro s. exact (drive_thrusters_bounded x y rot s). Qed.

Lemma trace_all_bounded_autonomous (mdiff : Q * Q -> Q * Q -> Q * Q)
      (e : tick_env) :
  trace_all bounded_event (autonomous mdiff e).
Proof.
  unfold autonomous, print_debug, gps_readLocationData.
  apply trace_all_bind.
  - apply trace_all_try_except.
    + apply trace_all_bind; [|auto with trace_all].
      apply trace_all_bind; [apply trace_all_get|].
      intros self. destruct (gps self); auto with trace_all.
      apply trace_all_bind; [now apply trace_all_emit|].
      intros _. destruct (gps_read e); auto with trace_all.
    + intros ex. destruct ex; auto with trace_all.
      apply trace_all_bind; [apply trace_all_get|].
      intros self. destruct (_DEBUG self); auto with trace_all.
      apply trace_all_bind.
      * apply trace_all_stop_thrusters; [intros esc; exact zero_power_bounded | exact I].
      * intros _. apply trace_all_bind; [now apply trace_all_emit | auto with trace_all].
  - intros [loc|]; auto with trace_all.
    apply trace_all_bind; [apply trace_all_get|].
    intros self. destruct (auto_target self); auto with trace_all.
    apply trace_all_bind; [now apply trace_all_emit|]. intros _.
    apply trace_all_bind; [apply trace_all_bounded_drive_thrusters|].
    auto with trace_all.
Qed.

Lemma trace_all_bounded_tick (mdiff : Q * Q -> Q * Q -> Q * Q) (e : tick_env) :
  trace_all bounded_event (tick mdiff e).
Proof.
  unfold tick.
  apply trace_all_bind; [now apply trace_all_emit|]. intros _.
  apply trace_all_bind; [apply trace_all_get|]. intros self.
  destruct (stale (movement self) (now e)).
  - apply trace_all_bind; [apply trace_all_modify|]. intros _.
    apply trace_all_stop_thrusters; [intros esc; exact zero_power_bounded | exact I].
  - apply trace_all_bind.
    + destruct (auto_cut_off self); auto with trace_all.
      apply trace_all_bounded_autonomous.
    + intros [|]; auto with trace_all.
      apply trace_all_bind; [apply trace_all_get|].
      intros self'. destruct (auto_target self'); auto with trace_all.
      apply trace_all_bounded_drive_thrusters.
Qed.

(** X2: whatever the object holds and whatever the clock and the GPS
    return, every power the loop commands to a motor controller, in any
    number of iterations, has magnitude at most [MAX_MTR_PWR] (20). *)
Theorem run_powers_bounded (mdiff : Q * Q -> Q * Q -> Q * Q)
        (envs : list tick_env) (s : ThrusterControl) :
  powers_bounded (trace_of (run mdiff envs s)).
Proof.
  revert s. change (trace_all bounded_event (run mdiff envs)).
  induction envs as [| e envs IH]; cbn [run].
  - apply trace_all_ret.
  - apply trace_all_bind; [apply trace_all_get|].
    intros self. destruct (running self); [|apply trace_all_ret].
    apply trace_all_bind; [apply trace_all_bounded_tick | intros _; exact IH].
Qed.

(** X3: [stop_thrusters] never starts a motor and never commands a power
    other than zero: whatever the thrusters dict holds, each of its actions
    is a [setPower(0)] or the debug print of the stop, and it changes no
    attribute of the object. *)
Theorem stop_thrusters_only_stops (s : ThrusterControl) :
  Forall stop_event (trace_of (stop_thrusters s))
  /\ state_of (stop_thrusters s) = s.
Proof.
  split.
  - apply trace_all_stop_thrusters; [reflexivity | exact I].
  - apply read_only_stop_thrusters.
Qed.

(** ** The devices stay as constructed *)

Lemma read_only_gps_close : read_only gps_close.
Proof.
  unfold gps_close. apply read_only_bind; [apply read_only_get|].
  intros self. destruct (gps self); auto with read_only.
Qed.

Lemma same_devices_do_call (mdiff : Q * Q -> Q * Q -> Q * Q) (c : call) :
  preserves same_devices (do_call mdiff c).
Proof.
  pose proof same_devices_refl as Rf. pose proof same_devices_trans as Tr.
  assert (Hmod : forall f, (forall s, same_devices s (f s)) ->
                           preserves same_devices (modify f))
    by (intros f Hf; now apply preserves_modify).
  assert (Hro : forall A (m : M A), read_only m -> preserves same_devices m)
    by (intros A m Hm; now apply preserves_read_only).
  assert (Hb : forall A B (m : M A) (k : A -> M B),
             preserves same_devices m ->
             (forall a, preserves same_devices (k a)) ->
             preserves same_devices (bind m k))
    by (intros; now apply preserves_bind).
  destruct c; cbn [do_call].
  - unfold start. apply Hb; [apply Hmod; intros s; repeat split|].
    intros _. apply Hro, read_only_emit.
  - unfold close.
    apply Hb; [apply Hro, read_only_stop_thrusters|]. intros _.
    apply Hb; [apply Hro, read_only_gps_close|]. intros _.
    apply Hb; [apply Hmod; intros s; repeat split|]. intros _.
    apply Hro, read_only_emit.
  - unfold manual_control. apply Hmod. intros s. repeat split.
  - unfold set_auto_target.
    destruct lat0 as [la|]; [destruct lon0 as [lo|]|];
      apply Hmod; intros s; repeat split.
  - unfold next_auto_target, get_next_auto_target.
    apply Hb; [|intros t; apply Hmod; intros s; repeat split].
    apply preserves_try_except; auto.
    + apply Hb; [apply Hro, read_only_get|]. intros self.
      destruct (AUTO_TARGETS self); [apply Hro, read_only_raise|].
      apply Hb; [apply Hmod; intros s; repeat split|].
      intros _. apply Hro, read_only_ret.
    + intros e. destruct e;
        first [apply Hro, read_only_ret | apply Hro, read_only_raise].
  - unfold disable_auto, print_debug.
    apply Hb; [apply Hro, read_only_emit|]. intros _.
    apply Hmod. intros s. repeat split.
  - apply preserves_run; [exact Rf | exact Tr |]. intros s. repeat split.
Qed.

Lemma same_devices_do_calls (mdiff : Q * Q -> Q * Q -> Q * Q)
      (cs : list call) (s : ThrusterControl) :
  same_devices s (do_calls mdiff cs s).
Proof.
  revert s. induction cs as [| c cs IH]; intros s; cbn [do_calls].
  - apply same_devices_refl.
  - eapply same_devices_trans; [apply (same_devices_do_call mdiff c s) | apply IH].
Qed.

(** X4: no method and no iteration of the loop changes the devices the
    constructor set up: after any sequence of calls on a constructed rover,
    returning or raising, [thrusters] is the dict of the four motor
    controllers exactly when their construction succeeded and [None]
    otherwise, [_DEBUG] is true exactly when it is [None], and [gps] is as
    constructed. *)
Theorem devices_fixed_after_init (mdiff : Q * Q -> Q * Q -> Q * Q)
        (gps_arg gps_ok esc_ok imu_ok : bool) (cs : list call) :
  let s := do_calls mdiff cs (init gps_arg gps_ok esc_ok imu_ok) in
  thrusters s = (if esc_ok then Some hw_thrusters else None)
  /\ _DEBUG s = negb esc_ok
  /\ (_DEBUG s = true <-> thrusters s = None)
  /\ gps s = gps (init gps_arg gps_ok esc_ok imu_ok).
Proof.
  intros s.
  destruct (same_devices_do_calls mdiff cs (init gps_arg gps_ok esc_ok imu_ok))
    as (Ht & Hd & Hg & _).
  fold s in Ht, Hd, Hg. cbn in Ht, Hd.
  repeat split; try assumption.
  - intros D. rewrite Ht. rewrite Hd in D. now destruct esc_ok.
  - intros T. rewrite Hd. rewrite Ht in T. now destruct esc_ok.
Qed.

(** ** The waypoint queue *)

Lemma next_auto_target_state (s : ThrusterControl) :
  state_of (next_auto_target s)
  = match AUTO_TARGETS s with
    | [] => with_auto_target None s
    | w :: q => with_auto_target (Some w) (with_AUTO_TARGETS q s)
    end.
Proof.
  destruct (AUTO_TARGETS s) as [| w q] eqn:E.
  - now rewrite (next_auto_target_nil s E).
  - now rewrite (next_auto_target_cons w q s E).
Qed.

Lemma after_next_auto_targets_queue (n : nat) (s : ThrusterControl) :
  AUTO_TARGETS (after_next_auto_targets n s) = skipn n (AUTO_TARGETS s).
Proof.
  revert s. induction n as [| n IH]; intros s; cbn [after_next_auto_targets].
  - reflexivity.
  - rewrite IH, next_auto_target_state.
    destruct (AUTO_TARGETS s) as [| w q] eqn:E; cbn.
    + rewrite E. now destruct n.
    + reflexivity.
Qed.

Lemma after_next_auto_targets_snoc (n : nat) (s : ThrusterControl) :
  after_next_auto_targets (S n) s
  = state_of (next_auto_target (after_next_auto_targets n s)).
Proof.
  revert s. induction n as [| n IH]; intros s.
  - reflexivity.
  - cbn [after_next_auto_targets] in *. now rewrite IH.
Qed.

Lemma head_skipn_nth_error {X} (n : nat) (l : list X) :
  hd_error (skipn n l) = nth_error l n.
Proof.
  revert l. induction n as [| n IH]; intros [| x l]; cbn; auto.
Qed.

(** X5: the waypoint queue is consumed in order, for a queue of any
    length: after [n] calls of [next_auto_target] the queue is the original
    one without its first [n] waypoints, the count of remaining waypoints
    is the original count less [n] (and 0 once the queue is used up), and
    the call number [n + 1] makes the waypoint at index [n] the target, or
    unsets the target when there is none. *)
Theorem next_auto_target_drains_in_order (n : nat) (s : ThrusterControl) :
  AUTO_TARGETS (after_next_auto_targets n s) = skipn n (AUTO_TARGETS s)
  /\ get_remaining_waypoints (after_next_auto_targets n s)
     = (get_remaining_waypoints s - n)%nat
  /\ auto_target (after_next_auto_targets (S n) s)
     = nth_error (AUTO_TARGETS s) n.
Proof.
  split; [apply after_next_auto_targets_queue | split].
  - unfold get_remaining_waypoints.
    rewrite after_next_auto_targets_queue. apply length_skipn.
  - rewrite after_next_auto_targets_snoc, next_auto_target_state.
    rewrite after_next_auto_targets_queue, <- head_skipn_nth_error.
    now destruct (skipn n (AUTO_TARGETS s)).
Qed.

(** ** [close] without motor controllers *)

(** X6: in debug mode, on a rover whose GPS is not connected ([self.gps] is
    [None] or was never assigned), [close] prints the stop and then raises
    [AttributeError] at [self.gps.close()]: [running] is not cleared and
    the loop thread is not joined. *)
Theorem close_without_gps_raises (s : ThrusterControl) :
  thrusters s = None ->
  gps s <> GpsDevice ->
  close s = (Raise AttributeError, s, [PrintDebug StopThrustersMsg]).
Proof.
  intros H G. destruct s; cbn in H, G; subst.
  unfold close, stop_thrusters, gps_close, print_debug, bind, get, emit. cbn.
  destruct gps0; [reflexivity | reflexivity | congruence].
Qed.

Lemma close_without_gps_raises_witness :
  close started_debug_no_gps
  = (Raise AttributeError, started_debug_no_gps, [PrintDebug StopThrustersMsg]).
Proof.
  apply (close_without_gps_raises started_debug_no_gps);
    [reflexivity | discriminate].
Defined.

Lemma run_not_running (mdiff : Q * Q -> Q * Q -> Q * Q)
      (envs : list tick_env) (s : ThrusterControl) :
  running s = false -> run mdiff envs s = (Ok tt, s, []).
Proof.
  intro H. destruct envs as [| e envs]; [reflexivity|].
  cbn [run]. unfold bind, get. now rewrite H.
Qed.

(** X7: in debug mode with a connected GPS, on a rover whose thread was
    started ([start] was called, whatever calls followed it), [close]
    returns with [running] cleared, having printed the stop, closed the GPS
    and joined the thread; on the object it leaves, [run] makes no
    iteration.  (A thread never started is outside this statement: Python's
    [join] raises [RuntimeError] on it.) *)
Theorem close_then_run_idle (mdiff : Q * Q -> Q * Q -> Q * Q)
        (cs : list call) (envs : list tick_env) (s : ThrusterControl) :
  thrusters s = None ->
  gps s = GpsDevice ->
  let s1 := do_calls mdiff cs (state_of (start s)) in
  close s1 = (Ok tt, with_running false s1,
              [PrintDebug StopThrustersMsg; GpsClose; Join])
  /\ running (state_of (close s1)) = false
  /\ run mdiff envs (state_of (close s1)) = (Ok tt, with_running false s1, []).
Proof.
  intros H G s1.
  destruct (same_devices_do_calls mdiff cs (state_of (start s)))
    as (Ht & _ & Hg & _).
  fold s1 in Ht, Hg. cbn in Ht, Hg.
  assert (H1 : thrusters s1 = None) by congruence.
  assert (G1 : gps s1 = GpsDevice) by congruence.
  rewrite (close_debug s1 H1 G1). cbn [state_of fst snd].
  split; [reflexivity | split; [reflexivity|]].
  now apply run_not_running.
Qed.

(** The rover without motor controllers is started, gets a zero command
    and a target, the loop makes an autonomous iteration, and [close] is
    called. *)
Lemma close_then_run_idle_witness :
  let cs := [ CallManualControl 100 0 0 0; CallSetAutoTarget (Some 5) (Some 7);
              CallRun [env_at 101 (Ok {| lat := 1; lon := 10 |})] ] in
  let s1 := do_calls planar_mdiff cs
              (state_of (start (init false true false true))) in
  close s1 = (Ok tt, with_running false s1,
              [PrintDebug StopThrustersMsg; GpsClose; Join])
  /\ running (state_of (close s1)) = false
  /\ run planar_mdiff [env_at 102 (Raise ValueError)] (state_of (close s1))
     = (Ok tt, with_running false s1, []).
Proof.
  intros cs.
  apply (close_then_run_idle planar_mdiff cs [env_at 102 (Raise ValueError)]
           (init false true false true)); reflexivity.
Defined.

(** ** Exceptions that leave the loop *)

(** X8: when [self.gps] is not a connected reader, the first iteration that
    takes the autonomous branch raises [AttributeError] at the GPS read,
    which the handler for [ValueError] does not catch, in debug mode too:
    nothing is commanded or printed and the exception leaves [run]. *)
Theorem tick_autonomous_without_gps_raises (mdiff : Q * Q -> Q * Q -> Q * Q)
        (e : tick_env) (envs : list tick_env) (s : ThrusterControl) :
  gps s <> GpsDevice ->
  running s = true ->
  stale (movement s) (now e) = false ->
  auto_cut_off s = false ->
  tick mdiff e s = (Raise AttributeError, s, [Sleep (2 # 10)])
  /\ run mdiff (e :: envs) s = (Raise AttributeError, s, [Sleep (2 # 10)]).
Proof.
  intros G R St Hc.
  assert (A : autonomous mdiff e s = (Raise AttributeError, s, [])).
  { unfold autonomous, try_except, gps_readLocationData, bind, get. cbn.
    destruct (gps s); [reflexivity | reflexivity | congruence]. }
  assert (T : tick mdiff e s = (Raise AttributeError, s, [Sleep (2 # 10)])).
  { rewrite (tick_autonomous mdiff e s St Hc). now rewrite A. }
  split; [exact T|].
  cbn [run]. unfold bind at 1. cbn [get]. rewrite R.
  unfold bind. now rewrite T.
Qed.

(** X9: an exception of the GPS read other than [ValueError] is not caught:
    the iteration raises it after the read, with no command to the
    thrusters, and it leaves [run]. *)
Theorem tick_gps_other_error_escapes (mdiff : Q * Q -> Q * Q -> Q * Q)
        (e : tick_env) (envs : list tick_env) (s : ThrusterControl) (ex : exn) :
  gps s = GpsDevice ->
  running s = true ->
  stale (movement s) (now e) = false ->
  auto_cut_off s = false ->
  gps_read e = Raise ex ->
  ex <> ValueError ->
  tick mdiff e s = (Raise ex, s, [Sleep (2 # 10); ReadLocationData])
  /\ run mdiff (e :: envs) s
     = (Raise ex, s, [Sleep (2 # 10); ReadLocationData]).
Proof.
  intros G R St Hc Rd Nv.
  assert (A : autonomous mdiff e s = (Raise ex, s, [ReadLocationData])).
  { unfold autonomous, try_except, gps_readLocationData, bind, get, emit. cbn.
    rewrite G, Rd. cbn. destruct ex; try reflexivity. congruence. }
  assert (T : tick mdiff e s
              = (Raise ex, s, [Sleep (2 # 10); ReadLocationData])).
  { rewrite (tick_autonomous mdiff e s St Hc). now rewrite A. }
  split; [exact T|].
  cbn [run]. unfold bind at 1. cbn [get]. rewrite R.
  unfold bind. now rewrite T.
Qed.

(** The rover without motor controllers or GPS, with the zero command
    stamped 100 and the target (5, 7). *)
Lemma tick_autonomous_without_gps_raises_witness :
  let s := state_of (set_auto_target (Some 5) (Some 7)
             (state_of (manual_control 100 0 0 0 started_debug_no_gps))) in
  tick planar_mdiff (env_at 101 (Raise ValueError)) s
  = (Raise AttributeError, s, [Sleep (2 # 10)])
  /\ run planar_mdiff [env_at 101 (Raise ValueError)] s
     = (Raise AttributeError, s, [Sleep (2 # 10)]).
Proof.
  intros s.
  apply (tick_autonomous_without_gps_raises planar_mdiff
           (env_at 101 (Raise ValueError)) [] s);
    [discriminate | reflexivity | reflexivity | reflexivity].
Defined.

(** The rover with all devices, the zero command, a target, and a GPS read
    that raises [KeyError]. *)
Lemma tick_gps_other_error_escapes_witness :
  tick planar_mdiff (env_at 101 (Raise KeyError)) (commanded_hw 0 0 0)
  = (Raise KeyError, commanded_hw 0 0 0, [Sleep (2 # 10); ReadLocationData])
  /\ run planar_mdiff [env_at 101 (Raise KeyError)] (commanded_hw 0 0 0)
     = (Raise KeyError, commanded_hw 0 0 0,
        [Sleep (2 # 10); ReadLocationData]).
Proof.
  apply (tick_gps_other_error_escapes planar_mdiff
           (env_at 101 (Raise KeyError)) [] (commanded_hw 0 0 0) KeyError);
    [reflexivity | reflexivity | reflexivity | reflexivity | reflexivity
    | discriminate].
Defined.

(** ** The autonomous drive and the manual pass-through *)

Lemma autonomous_hw_ok (mdiff : Q * Q -> Q * Q -> Q * Q) (e : tick_env)
      (s : ThrusterControl) (t loc : coord) :
  thrusters s = Some hw_thrusters ->
  gps s = GpsDevice ->
  auto_target s = Some t ->
  gps_read e = Ok loc ->
  let d := mdiff (lat loc, lon loc) (lat t, lon t) in
  autonomous mdiff e s
  = (Ok Fallthrough, s,
     ReadLocationData :: PrintDebug (AutonomousDiffMsg d)
       :: map (fun '(esc, kv) => StartPower (snd esc) (snd kv))
              (combine hw_thrusters
                 (pwrs (scale_m_distance (fst d)) (scale_m_distance (snd d)) 0))).
Proof.
  intros H G Ht Rd d. destruct s; cbn in H, G, Ht; subst.
  unfold autonomous, try_except, gps_readLocationData, bind, get, emit.
  cbn. rewrite Rd. reflexivity.
Qed.

(** X10: with all devices present, an iteration on a fresh zero command
    with a target set and a GPS read that succeeds reads the position,
    prints the offsets to the target, and starts the four motor controllers
    at the mix of the scaled east and north offsets with no yaw; the object
    is left as it was (the target stays set). *)
Theorem tick_autonomous_hw (mdiff : Q * Q -> Q * Q -> Q * Q) (e : tick_env)
        (s : ThrusterControl) (t loc : coord) :
  thrusters s = Some hw_thrusters ->
  gps s = GpsDevice ->
  stale (movement s) (now e) = false ->
  auto_cut_off s = false ->
  auto_target s = Some t ->
  gps_read e = Ok loc ->
  let d := mdiff (lat loc, lon loc) (lat t, lon t) in
  tick mdiff e s
  = (Ok tt, s,
     Sleep (2 # 10) :: ReadLocationData :: PrintDebug (AutonomousDiffMsg d)
       :: map (fun '(esc, kv) => StartPower (snd esc) (snd kv))
              (combine hw_thrusters
                 (pwrs (scale_m_distance (fst d)) (scale_m_distance (snd d)) 0))).
Proof.
  intros H G St Hc Ht Rd d.
  rewrite (tick_autonomous mdiff e s St Hc).
  now rewrite (autonomous_hw_ok mdiff e s t loc H G Ht Rd).
Qed.

(** The rover 4 m west and 3 m north of its target (in the stand-in
    metric): front and back get 8.6, left and right -4.7. *)
Lemma tick_autonomous_hw_witness :
  tick planar_mdiff (env_at 101 (Ok {| lat := 1; lon := 10 |})) (commanded_hw 0 0 0)
  = (Ok tt, commanded_hw 0 0 0,
     Sleep (2 # 10) :: ReadLocationData
       :: PrintDebug (AutonomousDiffMsg (5 - 1, 7 - 10))
       :: map (fun '(esc, kv) => StartPower (snd esc) (snd kv))
              (combine hw_thrusters
                 (pwrs (scale_m_distance (5 - 1)) (scale_m_distance (7 - 10)) 0))).
Proof.
  apply (tick_autonomous_hw planar_mdiff
           (env_at 101 (Ok {| lat := 1; lon := 10 |})) (commanded_hw 0 0 0)
           {| lat := 5; lon := 7 |} {| lat := 1; lon := 10 |}); reflexivity.
Defined.

(** X11: with the motor controllers present and no target set, a manual
    command is passed through unscaled by every iteration up to and
    including 2 s after it was stamped: the four motor controllers are
    started at the mix of its surge, lateral and yaw, the zero command too,
    and the object is left as the command left it. *)
Theorem manual_control_passthrough (mdiff : Q * Q -> Q * Q -> Q * Q)
        (e : tick_env) (s : ThrusterControl) (t x y rot : Q) :
  thrusters s = Some hw_thrusters ->
  auto_target s = None ->
  now e - t <= CONTROL_TIMEOUT ->
  tick mdiff e (state_of (manual_control t x y rot s))
  = (Ok tt, state_of (manual_control t x y rot s),
     Sleep (2 # 10)
       :: map (fun '(esc, kv) => StartPower (snd esc) (snd kv))
              (combine hw_thrusters (pwrs x y rot))).
Proof.
  intros H Ht Fr.
  set (s' := state_of (manual_control t x y rot s)).
  assert (St : stale (movement s') (now e) = false).
  { cbn. now apply Qlt_bool_false_iff. }
  assert (Hc : auto_cut_off s' = true).
  { unfold auto_cut_off, auto_enabled. cbn. now rewrite Ht. }
  assert (E : with_auto_target None s' = s').
  { subst s'. destruct s; cbn in Ht; subst. reflexivity. }
  rewrite (tick_cut_off mdiff e s' St Hc). rewrite E.
  rewrite drive_thrusters_hw by exact H. reflexivity.
Qed.

(** A half-surge, half-yaw command stamped 100 and read at exactly 102. *)
Lemma manual_control_passthrough_witness :
  tick planar_mdiff (env_at 102 (Raise ValueError))
       (state_of (manual_control 100 (1 # 2) 0 (1 # 2) started_hw))
  = (Ok tt, state_of (manual_control 100 (1 # 2) 0 (1 # 2) started_hw),
     Sleep (2 # 10)
       :: map (fun '(esc, kv) => StartPower (snd esc) (snd kv))
              (combine hw_thrusters (pwrs (1 # 2) 0 (1 # 2)))).
Proof.
  apply (manual_control_passthrough planar_mdiff
           (env_at 102 (Raise ValueError)) started_hw 100 (1 # 2) 0 (1 # 2));
    [reflexivity | reflexivity | discriminate].
Defined.

(** ** The loop in debug mode *)

Lemma autonomous_debug_ok (mdiff : Q * Q -> Q * Q -> Q * Q) (e : tick_env)
      (s : ThrusterControl) (t : coord) :
  thrusters s = None ->
  _DEBUG s = true ->
  gps s = GpsDevice ->
  auto_target s = Some t ->
  gps_read_or_ValueError e ->
  let loc := match gps_read e with Ok l => l | Raise _ => debug_loc end in
  let d := mdiff (lat loc, lon loc) (lat t, lon t) in
  autonomous mdiff e s
  = (Ok Fallthrough, s,
     [ ReadLocationData; PrintDebug (AutonomousDiffMsg d);
       PrintDebug (ThrustersPowerMsg
                     (pwrs (scale_m_distance (fst d))
                           (scale_m_distance (snd d)) 0)) ]).
Proof.
  intros H D G Ht Rd loc d. subst d loc.
  destruct s; cbn in H, D, G, Ht; subst.
  unfold gps_read_or_ValueError in Rd.
  unfold autonomous, try_except, gps_readLocationData, bind, get, emit.
  cbn. destruct (gps_read e) as [l | ex]; [reflexivity|].
  destruct ex; try contradiction. reflexivity.
Qed.

Lemma tick_debug_ok (mdiff : Q * Q -> Q * Q -> Q * Q) (e : tick_env)
      (s : ThrusterControl) :
  thrusters s = None ->
  _DEBUG s = true ->
  gps s = GpsDevice ->
  gps_read_or_ValueError e ->
  result_of (tick mdiff e s) = Ok tt
  /\ Forall no_motor_event (trace_of (tick mdiff e s)).
Proof.
  intros H D G Rd.
  destruct (stale (movement s) (now e)) eqn:St.
  - rewrite (tick_stale_debug mdiff e s H St). cbn.
    split; [reflexivity | repeat constructor].
  - destruct (auto_cut_off s) eqn:Hc.
    + rewrite (tick_cut_off mdiff e s St Hc).
      rewrite drive_thrusters_debug by exact H. cbn.
      split; [reflexivity | repeat constructor].
    + rewrite (tick_autonomous mdiff e s St Hc).
      assert (Ht : exists t, auto_target s = Some t).
      { rewrite auto_cut_off_eligible, negb_false_iff in Hc.
        apply eligible_spec_iff in Hc. destruct Hc as [Hn _].
        destruct (auto_target s) as [t|]; [now exists t | congruence]. }
      destruct Ht as [t Ht].
      rewrite (autonomous_debug_ok mdiff e s t H D G Ht Rd). cbn.
      split; [reflexivity | repeat constructor].
Qed.

Lemma run_cons (mdiff : Q * Q -> Q * Q -> Q * Q) (e : tick_env)
      (envs : list tick_env) (s : ThrusterControl) :
  run mdiff (e :: envs) s
  = if running s then bind (tick mdiff e) (fun _ => run mdiff envs) s
    else (Ok tt, s, []).
Proof.
  cbn [run]. unfold bind at 1. unfold get.
  destruct (running s); [|reflexivity].
  destruct (bind (tick mdiff e) _ s) as [[r s2] t2]. reflexivity.
Qed.

(** X12: taking each iteration as one step on the object it reads (calls
    from other threads fall between iterations, none during one): in debug
    mode (no motor controllers) with a connected GPS whose reads return a
    position or fail with [ValueError], the loop never raises and never
    commands a motor controller, whatever command, target and flags the
    object holds and whatever the clock, over any number of iterations.
    (A target unset by another thread while the GPS read blocks, which
    makes the re-read of the target raise [TypeError], is outside this
    statement.) *)
Theorem run_debug_never_raises (mdiff : Q * Q -> Q * Q -> Q * Q)
        (envs : list tick_env) (s : ThrusterControl) :
  thrusters s = None ->
  _DEBUG s = true ->
  gps s = GpsDevice ->
  Forall gps_read_or_ValueError envs ->
  result_of (run mdiff envs s) = Ok tt
  /\ Forall no_motor_event (trace_of (run mdiff envs s)).
Proof.
  revert s. induction envs as [| e envs IH]; intros s H D G Henvs.
  - split; [reflexivity | constructor].
  - inversion Henvs as [| ? ? He Henvs']; subst.
    rewrite run_cons.
    destruct (running s); [|split; [reflexivity | constructor]].
    destruct (tick_debug_ok mdiff e s H D G He) as [Tr Tt].
    pose proof (preserves_tick _ same_devices_refl same_devices_trans mdiff e
                  (fun s0 => same_devices_refl (with_auto_target None s0)) s)
      as (K1 & K2 & K3 & _).
    unfold bind.
    destruct (tick mdiff e s) as [[r s1] t1]. cbn in Tr, Tt, K1, K2, K3.
    subst r.
    assert (H1 : thrusters s1 = None) by congruence.
    assert (D1 : _DEBUG s1 = true) by congruence.
    assert (G1 : gps s1 = GpsDevice) by congruence.
    destruct (IH s1 H1 D1 G1 Henvs') as [Rr Rt].
    destruct (run mdiff envs s1) as [[r2 s2] t2]. cbn in Rr, Rt |- *.
    split; [exact Rr | apply Forall_app; now split].
Qed.

(** The zero command stamped 100 with a target: an autonomous iteration on
    a failed read, one on a good read, and a stale one. *)
Lemma run_debug_never_raises_witness :
  let s := state_of (set_auto_target (Some 5) (Some 7)
             (state_of (manual_control 100 0 0 0 started_debug))) in
  let envs := [env_at 101 (Raise ValueError);
               env_at 102 (Ok {| lat := 1; lon := 10 |});
               env_at 103 (Raise ValueError)] in
  result_of (run planar_mdiff envs s) = Ok tt
  /\ Forall no_motor_event (trace_of (run planar_mdiff envs s)).
Proof.
  intros s envs.
  apply (run_debug_never_raises planar_mdiff envs s);
    [reflexivity | reflexivity | reflexivity | repeat constructor].
Defined.

Lemma tick_stale_state (mdiff : Q * Q -> Q * Q -> Q * Q) (e : tick_env)
      (s : ThrusterControl) :
  stale (movement s) (now e) = true ->
  state_of (tick mdiff e s) = with_auto_target None s.
Proof.
  intro St. unfold tick, bind at 1 2. cbn [emit get]. rewrite St.
  unfold bind, modify.
  pose proof (read_only_stop_thrusters (with_auto_target None s)) as Hs.
  destruct (stop_thrusters (with_auto_target None s)) as [[[u | ex] s1] t1];
    cbn in Hs |- *; exact Hs.
Qed.

(** X13: the failsafe ends autonomous driving for good: after an iteration
    that found the command stale, the target is unset, and when zero
    commands arrive again the next iteration (in debug mode, where the
    stale iteration returns) reads no GPS and passes the zero command
    through; autonomous driving resumes only when a target is set anew. *)
Theorem failsafe_drops_autonomy (mdiff : Q * Q -> Q * Q -> Q * Q)
        (e1 e2 : tick_env) (s : ThrusterControl) (t : Q) :
  thrusters s = None ->
  stale (movement s) (now e1) = true ->
  now e2 - t <= CONTROL_TIMEOUT ->
  let s1 := state_of (tick mdiff e1 s) in
  let s2 := state_of (manual_control t 0 0 0 s1) in
  auto_target s1 = None
  /\ tick mdiff e2 s2
     = (Ok tt, s2,
        [Sleep (2 # 10); PrintDebug (ThrustersPowerMsg (pwrs 0 0 0))]).
Proof.
  intros H St Fr s1 s2.
  assert (E1 : s1 = with_auto_target None s) by (now apply tick_stale_state).
  split; [now rewrite E1|].
  assert (St2 : stale (movement s2) (now e2) = false).
  { cbn. now apply Qlt_bool_false_iff. }
  assert (Hc : auto_cut_off s2 = true).
  { unfold auto_cut_off, auto_enabled. subst s2. rewrite E1. reflexivity. }
  assert (E : with_auto_target None s2 = s2).
  { subst s2. rewrite E1. reflexivity. }
  rewrite (tick_cut_off mdiff e2 s2 St2 Hc). rewrite E.
  rewrite drive_thrusters_debug; [reflexivity|].
  subst s2. rewrite E1. exact H.
Qed.

(** A zero command stamped 100 with a target, read at 103 (stale); the
    zero command again at 104, read at 105. *)
Lemma failsafe_drops_autonomy_witness :
  let s := state_of (set_auto_target (Some 5) (Some 7)
             (state_of (manual_control 100 0 0 0 started_debug))) in
  let s1 := state_of (tick planar_mdiff (env_at 103 (Raise ValueError)) s) in
  let s2 := state_of (manual_control 104 0 0 0 s1) in
  auto_target s1 = None
  /\ tick planar_mdiff (env_at 105 (Ok {| lat := 1; lon := 10 |})) s2
     = (Ok tt, s2,
        [Sleep (2 # 10); PrintDebug (ThrustersPowerMsg (pwrs 0 0 0))]).
Proof.
  intros s.
  apply (failsafe_drops_autonomy planar_mdiff (env_at 103 (Raise ValueError))
           (env_at 105 (Ok {| lat := 1; lon := 10 |})) s 104);
    [reflexivity | reflexivity | discriminate].
Defined.

(** ** The scaler and the mixer, further *)

(** X14: for a distance from the deadband up to [FULL_PWR_DISTANCE]
    (0.1 m to 10 m) the scaled power lies above [MIN_PWR] and at most at
    1. *)
Theorem scale_positive_range (d : Q) :
  DISTANCE_DEADBAND <= d ->
  d <= FULL_PWR_DISTANCE ->
  MIN_PWR < scale_m_distance d /\ scale_m_distance d <= 1.
Proof.
  intros L U. unfold DISTANCE_DEADBAND in L. unfold FULL_PWR_DISTANCE in U.
  rewrite scale_outside_deadband.
  - unfold MIN_PWR. split; lra.
  - rewrite Qabs_pos; unfold DISTANCE_DEADBAND; lra.
Qed.

Lemma scale_positive_range_witness :
  MIN_PWR < scale_m_distance 3 /\ scale_m_distance 3 <= 1.
Proof.
  apply (scale_positive_range 3); discriminate.
Defined.

(** X15: at and beyond the deadband on the positive side the scaled power
    never decreases when the distance grows. *)
Theorem scale_nondecreasing_positive (d1 d2 : Q) :
  DISTANCE_DEADBAND <= d1 ->
  d1 <= d2 ->
  scale_m_distance d1 <= scale_m_distance d2.
Proof.
  intros L H. unfold DISTANCE_DEADBAND in L.
  rewrite (scale_outside_deadband d1), (scale_outside_deadband d2).
  - lra.
  - rewrite Qabs_pos; unfold DISTANCE_DEADBAND; lra.
  - rewrite Qabs_pos; unfold DISTANCE_DEADBAND; lra.
Qed.

Lemma scale_nondecreasing_positive_witness :
  scale_m_distance (1 # 10) <= scale_m_distance 4.
Proof.
  apply (scale_nondecreasing_positive (1 # 10) 4); discriminate.
Defined.

Lemma scale_limit_high (s : Q) : 1 <= s -> scale_limit s = 1.
Proof.
  intro H. unfold scale_limit, py_min.
  apply Qlt_bool_false_iff in H. now rewrite H.
Qed.

(** X16: a target at [FULL_PWR_DISTANCE] (10 m) or farther on the positive
    side of the first axis drives the front and back thrusters at exactly
    full power, [MAX_MTR_PWR], whatever the other axis: the scaled value
    exceeds 1 and the mixer clamps it. *)
Theorem autonomous_power_saturates (d y : Q) :
  FULL_PWR_DISTANCE <= d ->
  dict_get "f" (pwrs (scale_m_distance d) y 0) = Some MAX_MTR_PWR
  /\ dict_get "b" (pwrs (scale_m_distance d) y 0) = Some MAX_MTR_PWR.
Proof.
  intros H. unfold FULL_PWR_DISTANCE in H.
  assert (A : DISTANCE_DEADBAND <= Qabs d)
    by (rewrite Qabs_pos; unfold DISTANCE_DEADBAND; lra).
  pose proof (scale_outside_deadband d A) as E.
  unfold pwrs. cbn [dict_get String.eqb Ascii.eqb Bool.eqb].
  cbn.
  rewrite (scale_limit_high (scale_m_distance d + 0)) by (rewrite E; lra).
  rewrite (scale_limit_high (scale_m_distance d - 0)) by (rewrite E; lra).
  split; reflexivity.
Qed.

Lemma autonomous_power_saturates_witness :
  dict_get "f" (pwrs (scale_m_distance 25) 0 0) = Some MAX_MTR_PWR
  /\ dict_get "b" (pwrs (scale_m_distance 25) 0 0) = Some MAX_MTR_PWR.
Proof.
  apply (autonomous_power_saturates 25 0). discriminate.
Defined.

Lemma scale_limit_within (s : Q) : - (1) < s -> s < 1 -> scale_limit s = s.
Proof.
  intros L U. unfold scale_limit, py_max, py_min.
  apply Qlt_bool_iff in U. rewrite U.
  apply Qlt_bool_iff in L. now rewrite L.
Qed.

Lemma scale_limit_at_most_minus_one (s : Q) : s <= - (1) -> scale_limit s = - (1).
Proof.
  intros H. unfold scale_limit, py_max, py_min.
  assert (U : Qlt_bool s 1 = true) by (apply Qlt_bool_iff; lra).
  rewrite U.
  assert (L : Qlt_bool (- (1)) s = false) by (now apply Qlt_bool_false_iff).
  now rewrite L.
Qed.

(** X17: full reverse power comes later than full forward power: for a
    first-axis offset from -11 m up to the deadband, -[FULL_PWR_DISTANCE]
    (-10 m) included, the clamped gain stays strictly above -1, so front
    and back run short of -[MAX_MTR_PWR]; an offset of -12 m or less
    drives them at exactly -[MAX_MTR_PWR]. *)
Theorem reverse_power_saturates_late (d d' y : Q) :
  - (11) <= d ->
  d <= - DISTANCE_DEADBAND ->
  d' <= - (12) ->
  - (1) < scale_limit (scale_m_distance d + 0)
  /\ - MAX_MTR_PWR < MAX_MTR_PWR * scale_limit (scale_m_distance d + 0)
  /\ dict_get "f" (pwrs (scale_m_distance d') y 0) = Some (- MAX_MTR_PWR)
  /\ dict_get "b" (pwrs (scale_m_distance d') y 0) = Some (- MAX_MTR_PWR).
Proof.
  intros L U H'. unfold DISTANCE_DEADBAND in U.
  assert (A : DISTANCE_DEADBAND <= Qabs d)
    by (rewrite Qabs_neg; unfold DISTANCE_DEADBAND; lra).
  assert (A' : DISTANCE_DEADBAND <= Qabs d')
    by (rewrite Qabs_neg; unfold DISTANCE_DEADBAND; lra).
  pose proof (scale_outside_deadband d A) as E.
  pose proof (scale_outside_deadband d' A') as E'.
  assert (G : - (1) < scale_limit (scale_m_distance d + 0)).
  { rewrite scale_limit_within; rewrite E; lra. }
  split; [exact G | split].
  - unfold MAX_MTR_PWR. lra.
  - unfold pwrs. cbn.
    rewrite (scale_limit_at_most_minus_one (scale_m_distance d' + 0))
      by (rewrite E'; lra).
    rewrite (scale_limit_at_most_minus_one (scale_m_distance d' - 0))
      by (rewrite E'; lra).
    split; reflexivity.
Qed.

Lemma reverse_power_saturates_late_witness :
  - (1) < scale_limit (scale_m_distance (- FULL_PWR_DISTANCE) + 0)
  /\ - MAX_MTR_PWR
     < MAX_MTR_PWR * scale_limit (scale_m_distance (- FULL_PWR_DISTANCE) + 0)
  /\ dict_get "f" (pwrs (scale_m_distance (- (25))) 0 0) = Some (- MAX_MTR_PWR)
  /\ dict_get "b" (pwrs (scale_m_distance (- (25))) 0 0) = Some (- MAX_MTR_PWR).
Proof.
  apply (reverse_power_saturates_late (- FULL_PWR_DISTANCE) (- (25)) 0);
    discriminate.
Defined.

(** X18: [scale_limit] leaves a gain within [-1, 1] as it is. *)
Theorem scale_limit_identity_on_range (s : Q) :
  - (1) <= s -> s <= 1 -> scale_limit s == s.
Proof.
  intros L U. rewrite scale_limit_spec. unfold clamp_spec.
  rewrite (Q.min_r 1 s) by exact U. apply Q.max_r. exact L.
Qed.

Lemma scale_limit_identity_on_range_witness :
  scale_limit (- (3 # 4)) == - (3 # 4).
Proof.
  apply (scale_limit_identity_on_range (- (3 # 4))); discriminate.
Defined.

Lemma clamp_spec_odd (s : Q) : clamp_spec (- s) == - clamp_spec s.
Proof.
  unfold clamp_spec.
  destruct (Qlt_le_dec s (- (1))) as [A | A].
  - rewrite (Q.min_l 1 (- s)) by lra. rewrite (Q.max_r (- (1)) 1) by lra.
    rewrite (Q.min_r 1 s) by lra. rewrite (Q.max_l (- (1)) s) by lra. lra.
  - destruct (Qlt_le_dec 1 s) as [B | B].
    + rewrite (Q.min_r 1 (- s)) by lra. rewrite (Q.max_l (- (1)) (- s)) by lra.
      rewrite (Q.min_l 1 s) by lra. rewrite (Q.max_r (- (1)) 1) by lra. lra.
    + rewrite (Q.min_r 1 (- s)) by lra. rewrite (Q.max_r (- (1)) (- s)) by lra.
      rewrite (Q.min_r 1 s) by lra. rewrite (Q.max_r (- (1)) s) by lra. lra.
Qed.

Lemma scale_limit_odd (s : Q) : scale_limit (- s) == - scale_limit s.
Proof. rewrite !scale_limit_spec. apply clamp_spec_odd. Qed.

Lemma scale_limit_ext (s t : Q) : s == t -> scale_limit s == scale_limit t.
Proof.
  intro H. rewrite !scale_limit_spec. unfold clamp_spec. now rewrite H.
Qed.

(** X19: on gains that are finite numbers the mixer is odd: reversing the surge,
    the lateral and the yaw gains reverses the power of each of the four
    thrusters.  (A float NaN is no number and is outside this statement:
    Python's [max(-1, min(1, nan))] is 1 whatever the sign of the NaN.) *)
Theorem pwrs_reversed (x y rot : Q) :
  same_pwrs (pwrs (- x) (- y) (- rot))
            (map (fun kv => (fst kv, - snd kv)) (pwrs x y rot)).
Proof.
  unfold same_pwrs, pwrs. cbn [map fst snd].
  repeat constructor; cbn [fst snd].
  - rewrite (scale_limit_ext (- x + - rot) (- (x + rot))) by lra.
    rewrite scale_limit_odd. lra.
  - rewrite (scale_limit_ext (- x - - rot) (- (x - rot))) by lra.
    rewrite scale_limit_odd. lra.
  - rewrite (scale_limit_ext (- y + - rot) (- (y + rot))) by lra.
    rewrite scale_limit_odd. lra.
  - rewrite (scale_limit_ext (- y - - rot) (- (y - rot))) by lra.
    rewrite scale_limit_odd. lra.
Qed.

(** X20: without yaw the mixer drives the thrusters in pairs: front and
    back both get the clamped surge, left and right both the clamped
    lateral gain, each times [MAX_MTR_PWR]; the two axes do not mix. *)
Theorem pwrs_without_yaw (x y : Q) :
  same_pwrs (pwrs x y 0)
            [ ("f"%string, MAX_MTR_PWR * scale_limit x);
              ("b"%string, MAX_MTR_PWR * scale_limit x);
              ("l"%string, MAX_MTR_PWR * scale_limit y);
              ("r"%string, MAX_MTR_PWR * scale_limit y) ].
Proof.
  unfold same_pwrs, pwrs.
  repeat constructor; cbn [fst snd].
  - rewrite (scale_limit_ext (x + 0) x) by lra. reflexivity.
  - rewrite (scale_limit_ext (x - 0) x) by lra. reflexivity.
  - rewrite (scale_limit_ext (y + 0) y) by lra. reflexivity.
  - rewrite (scale_limit_ext (y - 0) y) by lra. reflexivity.
Qed.

(** ** Leaving autonomous driving, and idling before the first command *)

(** X21: [disable_auto] prints and unsets the target, and the next
    iteration on a fresh command then reads no GPS: with the motor
    controllers present it starts them at the mix of the last manual
    command, the zero command included. *)
Theorem disable_auto_stops_autonomy (mdiff : Q * Q -> Q * Q -> Q * Q)
        (e : tick_env) (s : ThrusterControl) :
  thrusters s = Some hw_thrusters ->
  stale (movement s) (now e) = false ->
  disable_auto s = (Ok tt, with_auto_target None s, [PrintDebug AutoDisableMsg])
  /\ auto_enabled (state_of (disable_auto s)) = false
  /\ tick mdiff e (state_of (disable_auto s))
     = (Ok tt, with_auto_target None s,
        Sleep (2 # 10)
          :: map (fun '(esc, kv) => StartPower (snd esc) (snd kv))
                 (combine hw_thrusters
                    (pwrs (x_trans (movement s)) (y_trans (movement s))
                          (xy_rot (movement s))))).
Proof.
  intros H St. split; [reflexivity | split; [reflexivity|]].
  change (state_of (disable_auto s)) with (with_auto_target None s).
  assert (Hc : auto_cut_off (with_auto_target None s) = true) by reflexivity.
  rewrite (tick_cut_off mdiff e (with_auto_target None s) St Hc).
  change (with_auto_target None (with_auto_target None s))
    with (with_auto_target None s).
  rewrite drive_thrusters_hw by exact H. reflexivity.
Qed.

Lemma disable_auto_stops_autonomy_witness :
  disable_auto (commanded_hw 0 0 0)
  = (Ok tt, with_auto_target None (commanded_hw 0 0 0),
     [PrintDebug AutoDisableMsg])
  /\ auto_enabled (state_of (disable_auto (commanded_hw 0 0 0))) = false
  /\ tick planar_mdiff (env_at 101 (Ok {| lat := 1; lon := 10 |}))
          (state_of (disable_auto (commanded_hw 0 0 0)))
     = (Ok tt, with_auto_target None (commanded_hw 0 0 0),
        Sleep (2 # 10)
          :: map (fun '(esc, kv) => StartPower (snd esc) (snd kv))
                 (combine hw_thrusters (pwrs 0 0 0))).
Proof.
  apply (disable_auto_stops_autonomy planar_mdiff
           (env_at 101 (Ok {| lat := 1; lon := 10 |})) (commanded_hw 0 0 0));
    reflexivity.
Defined.

(** X22: until the first manual command arrives ([ts] is [None]) every
    iteration is a failsafe one, whatever the clock, the GPS and the
    target: in debug mode the loop sleeps and prints the stop once per
    iteration, returns, and leaves no target set. *)
Theorem run_idles_before_first_command (mdiff : Q * Q -> Q * Q -> Q * Q)
        (envs : list tick_env) (s : ThrusterControl) :
  thrusters s = None ->
  ts (movement s) = None ->
  running s = true ->
  result_of (run mdiff envs s) = Ok tt
  /\ trace_of (run mdiff envs s)
     = flat_map (fun _ => [Sleep (2 # 10); PrintDebug StopThrustersMsg]) envs
  /\ (envs <> [] -> auto_target (state_of (run mdiff envs s)) = None).
Proof.
  revert s. induction envs as [| e envs IH]; intros s H Ts R.
  - repeat split. congruence.
  - rewrite run_cons, R.
    assert (St : stale (movement s) (now e) = true)
      by (unfold stale; now rewrite Ts).
    unfold bind. rewrite (tick_stale_debug mdiff e s H St).
    destruct (IH (with_auto_target None s) H Ts R) as (Rr & Rt & Ra).
    destruct (run mdiff envs (with_auto_target None s)) as [[r2 s2] t2] eqn:E.
    cbn in Rr, Rt |- *. subst r2 t2.
    repeat split. intros _.
    destruct envs as [| e' envs'].
    + cbn in E. inversion E. reflexivity.
    + apply Ra. discriminate.
Qed.

(** The rover without motor controllers, constructed, started, and given a
    target but no command. *)
Lemma run_idles_before_first_command_witness :
  let s := state_of (set_auto_target (Some 5) (Some 7) started_debug) in
  let envs := [env_at 1 (Raise ValueError); env_at 50 (Ok {| lat := 1; lon := 10 |})] in
  result_of (run planar_mdiff envs s) = Ok tt
  /\ trace_of (run planar_mdiff envs s)
     = flat_map (fun _ => [Sleep (2 # 10); PrintDebug StopThrustersMsg]) envs
  /\ (envs <> [] -> auto_target (state_of (run planar_mdiff envs s)) = None).
Proof.
  intros s envs.
  apply (run_idles_before_first_command planar_mdiff envs s); reflexivity.
Defined.
